(** * Layouts: layout-stack resolution and folding

    A shallow embedding of [index.js] of the [layouts] package (the
    [Layouts] constructor and its prototype methods) together with the
    properties of the stack resolver ([createStack]), the folder
    ([stack]), the top-level [render] and the tag builder
    ([makeTag], [makeRegex], [replaceTag]).

    JavaScript values are embedded as the inductive type [value]; plain
    objects are association lists of their own properties, in insertion
    order, and answer with the properties of [Object.prototype] under the
    names they have no property of their own for.  The instance ([this])
    is the record [Layouts]; the methods that mutate it take the instance
    and return the new one. *)

From Stdlib Require Import List String Ascii ZArith Bool Lia Arith.
From Stdlib Require Import DecimalString.
Import ListNotations.
Local Open Scope string_scope.
Local Open Scope list_scope.

Set Implicit Arguments.

(* ================================================================== *)
(** ** JavaScript values *)
(* ================================================================== *)

(** The values the program manipulates.  [VThis] is a reference to the
    [Layouts] instance itself (an object that is not a plain object);
    [VFun] is a function, identified by its source text; [VProto] is the
    object [Object.prototype]; [VObj] is a plain object, one whose
    prototype is [Object.prototype], given by its own properties.
    Numbers are the integers.  Plain objects and arrays are treated as
    values: two objects with the same fields are the same value. *)
#[warnings="-register-all"]
Inductive value : Type :=
| VUndefined
| VNull
| VBool (b : bool)
| VNum (n : Z)
| VStr (s : string)
| VArr (items : list value)
| VObj (fields : list (string * value))
| VFun (src : string)
| VThis
| VProto.

(** [ToBoolean]: what [if (v)], [!v], [a || b] and [a && b] test. *)
Definition truthy (v : value) : bool :=
  match v with
  | VUndefined | VNull => false
  | VBool b => b
  | VNum n => negb (n =? 0)%Z
  | VStr s => negb (s =? "")
  | VArr _ | VObj _ | VFun _ | VThis | VProto => true
  end.

(** [a || b] and [a && b] return one of their operands. *)
Definition js_or (a b : value) : value := if truthy a then a else b.
Definition js_and (a b : value) : value := if truthy a then b else a.

(** [a === b].  The instance and [Object.prototype] are one object each;
    a function is the function of its source text.  Arrays and plain
    objects, which the embedding holds as values, are compared by their
    contents: the program compares a value with [false] and [true], a
    function with [merge], a key with the elements of [omitKeys] and, in
    the loop of [createStack], a name with the name before it, and the
    names of a store are strings. *)
Fixpoint strict_eq (a b : value) {struct a} : bool :=
  match a, b with
  | VUndefined, VUndefined => true
  | VNull, VNull => true
  | VBool x, VBool y => Bool.eqb x y
  | VNum x, VNum y => (x =? y)%Z
  | VStr x, VStr y => (x =? y)
  | VArr xs, VArr ys =>
      (fix items (xs ys : list value) {struct xs} : bool :=
         match xs, ys with
         | [], [] => true
         | x :: xs', y :: ys' => strict_eq x y && items xs' ys'
         | _, _ => false
         end) xs ys
  | VObj xs, VObj ys =>
      (fix fields (xs ys : list (string * value)) {struct xs} : bool :=
         match xs, ys with
         | [], [] => true
         | (k, x) :: xs', (k', y) :: ys' =>
             (k =? k') && strict_eq x y && fields xs' ys'
         | _, _ => false
         end) xs ys
  | VFun x, VFun y => (x =? y)
  | VThis, VThis => true
  | VProto, VProto => true
  | _, _ => false
  end.

(** [String(v)], as used by [Array.prototype.join], by property keys and
    by the replacement argument of [String.prototype.replace]. *)
Definition num_to_string (n : Z) : string :=
  NilZero.string_of_int (Z.to_int n).

Fixpoint join_with (sep : string) (parts : list string) : string :=
  match parts with
  | [] => ""
  | [p] => p
  | p :: rest => p ++ sep ++ join_with sep rest
  end.

Fixpoint to_str (v : value) : string :=
  match v with
  | VUndefined => "undefined"
  | VNull => "null"
  | VBool true => "true"
  | VBool false => "false"
  | VNum n => num_to_string n
  | VStr s => s
  | VArr items =>
      join_with ","
        ((fix each (l : list value) : list string :=
            match l with
            | [] => []
            | VUndefined :: l' => "" :: each l'
            | VNull :: l' => "" :: each l'
            | x :: l' => to_str x :: each l'
            end) items)
  | VObj _ => "[object Object]"
  | VFun src => src
  | VThis => "[object Object]"
  | VProto => "[object Object]"
  end.

(** An element of an array handed to [join]: [null] and [undefined] print
    as the empty string. *)
Definition join_elem (v : value) : string :=
  match v with
  | VUndefined | VNull => ""
  | _ => to_str v
  end.

(* ------------------------------------------------------------------ *)
(** *** Plain objects *)

Definition obj := list (string * value).

Fixpoint lookup (k : string) (o : obj) : option value :=
  match o with
  | [] => None
  | (k', v) :: o' => if k =? k' then Some v else lookup k o'
  end.

(** [o[k] = v]: an existing key keeps its position, a new one goes last. *)
Fixpoint assign (k : string) (v : value) (o : obj) : obj :=
  match o with
  | [] => [(k, v)]
  | (k', v') :: o' =>
      if k =? k' then (k, v) :: o' else (k', v') :: assign k v o'
  end.

(** A function of the language itself, as [String] prints it. *)
Definition native (name : string) : value :=
  VFun ("function " ++ name ++ "() { [native code] }")%string.

(** The methods of [Object.prototype].  Its twelfth property is the
    accessor [__proto__], which answers with the prototype of the object
    it is read from. *)
Definition Object_prototype : obj :=
  [("constructor", native "Object");
   ("__defineGetter__", native "__defineGetter__");
   ("__defineSetter__", native "__defineSetter__");
   ("hasOwnProperty", native "hasOwnProperty");
   ("__lookupGetter__", native "__lookupGetter__");
   ("__lookupSetter__", native "__lookupSetter__");
   ("isPrototypeOf", native "isPrototypeOf");
   ("propertyIsEnumerable", native "propertyIsEnumerable");
   ("toString", native "toString");
   ("valueOf", native "valueOf");
   ("toLocaleString", native "toLocaleString")].

Definition method_of_Object (k : string) : value :=
  match lookup k Object_prototype with
  | Some f => f
  | None => VUndefined
  end.

(** What a plain object answers under a name that is not a property of
    its own: the property of [Object.prototype], its prototype. *)
Definition inherited (k : string) : value :=
  if k =? "__proto__" then VProto else method_of_Object k.

(** [v[k]] for a receiver that is not [null] or [undefined]: an own
    property of a plain object or, failing that, the property it inherits
    from [Object.prototype].  Of the other receivers (arrays, strings,
    functions, the instance) no property is modelled: the program reads
    from them under the names [layout], [data], [content], [locals] and the
    like, which they do not define. *)
Definition get (v : value) (k : string) : value :=
  match v with
  | VObj o => match lookup k o with Some x => x | None => inherited k end
  | VProto => if k =? "__proto__" then VNull else method_of_Object k
  | _ => VUndefined
  end.

(** [{}.hasOwnProperty.call(v, k)]. *)
Definition hasOwn (v : value) (k : string) : bool :=
  match v with
  | VObj o => match lookup k o with Some _ => true | None => false end
  | VProto =>
      (k =? "__proto__")
      || match lookup k Object_prototype with Some _ => true | None => false end
  | _ => false
  end.

(** [v[i]] for a numeric index: an array element, a character of a
    string, or the property named by the index. *)
Definition get_idx (v : value) (i : nat) : value :=
  match v with
  | VArr items => nth i items VUndefined
  | VStr s => match String.get i s with
              | Some c => VStr (String c EmptyString)
              | None => VUndefined
              end
  | _ => get v (num_to_string (Z.of_nat i))
  end.

(** [v.k = x] for a plain object [v] and a name [k] that the program
    writes out ([locals], [layout]): the property becomes an own property
    of [v]. *)
Definition set (v : value) (k : string) (x : value) : value :=
  match v with
  | VObj o => VObj (assign k x o)
  | _ => v
  end.

(** [v[k] = x], for any key, in strict mode.  On a plain object the
    property becomes an own property, but for the key [__proto__]: unless
    the object has a property of its own under that name, the assignment
    goes to the accessor of [Object.prototype], which ignores a value that
    is not an object or [null] and otherwise changes the prototype of [v].
    [None] when the assignment throws (a receiver that is [null],
    [undefined] or a primitive) or does what the embedding does not
    follow: it changes a prototype, or adds a property to an array, a
    function, the instance or [Object.prototype]. *)
Definition put (v : value) (k : string) (x : value) : option value :=
  match v with
  | VObj _ =>
      if (k =? "__proto__") && negb (hasOwn v k) then
        match x with
        | VUndefined | VBool _ | VNum _ | VStr _ => Some v
        | _ => None
        end
      else Some (set v k x)
  | _ => None
  end.

(* ------------------------------------------------------------------ *)
(** *** The object helpers the program imports *)

(** [is-plain-object]. *)
Definition isObject (v : value) : bool :=
  match v with VObj _ => true | _ => false end.

(** [mixin-deep], one source: every key of a plain-object source is
    copied onto the target; where both the target's and the source's value
    are plain objects they are mixed recursively.  Sources that are not
    plain objects (among them arrays and the instance) are skipped. *)
Fixpoint mixin (target : obj) (source : value) {struct source} : obj :=
  match source with
  | VObj fields =>
      (fix copy (fs : list (string * value)) (acc : obj) {struct fs} : obj :=
         match fs with
         | [] => acc
         | (k, v) :: fs' =>
             copy fs'
               (assign k
                  (match lookup k acc, v with
                   | Some (VObj old), VObj _ => VObj (mixin old v)
                   | _, _ => v
                   end) acc)
         end) fields target
  | _ => target
  end.

(** Modelled from the spec: [merge(target, ...sources) -> target] of the
    imported [mixin-deep] "deep-merges plain mappings".  The sources are
    mixed into the target from left to right; a target that is not a plain
    object is returned as it is. *)
Definition merge (target : value) (sources : list value) : value :=
  match target with
  | VObj o => VObj (fold_left mixin sources o)
  | _ => target
  end.

(** [object-pick]: the listed own keys that are present. *)
Definition pick (v : value) (keys : list string) : value :=
  match v with
  | VObj o =>
      VObj (fold_left
              (fun acc k => match lookup k o with
                            | Some x => assign k x acc
                            | None => acc
                            end) keys [])
  | _ => VObj []
  end.

(** [omit-keys]: a copy of the object without the keys listed in the
    array [keys]. *)
Definition omit (v : value) (keys : value) : value :=
  match v with
  | VObj o =>
      match keys with
      | VArr ks =>
          VObj (filter
                  (fun kv => negb (existsb (strict_eq (VStr (fst kv))) ks)) o)
      | _ => v
      end
  | _ => VObj []
  end.

(* ================================================================== *)
(** ** Regular expressions and [String.prototype.replace] *)
(* ================================================================== *)

(** The patterns [makeRegex] builds are a delimiter, a separator, a tag
    name, a separator and a delimiter.  The embedding covers the fragment
    of the pattern language that such a source uses: a literal character,
    an escaped punctuation character, the class [\s], and each of these
    followed by a star.  Strings are sequences of code units below 256. *)
Inductive atom : Type :=
| Chr (c : ascii)
| Space.

Inductive item : Type :=
| One (a : atom)
| Star (a : atom).

Record RegExp : Type := mkRegExp {
  rx_items : list item;
  rx_global : bool
}.

Definition in_string (c : ascii) (s : string) : bool :=
  existsb (Ascii.eqb c) (list_ascii_of_string s).

(** The characters with a meaning of their own in a pattern. *)
Definition syntax_chars : string := "^$\.*+?()[]{}|/".

Definition is_space (c : ascii) : bool :=
  match nat_of_ascii c with
  | 9 | 10 | 11 | 12 | 13 | 32 | 160 => true
  | _ => false
  end.

(** Reads the pattern source; [None] outside the fragment. *)
Fixpoint parse_items (src : list ascii) (pending : option atom)
  : option (list item) :=
  let flush (rest : option (list item)) :=
    match pending with
    | Some a => option_map (cons (One a)) rest
    | None => rest
    end in
  match src with
  | [] => flush (Some [])
  | c :: src' =>
      if Ascii.eqb c "*" then
        match pending with
        | Some a => option_map (cons (Star a)) (parse_items src' None)
        | None => None
        end
      else if Ascii.eqb c "\" then
        match src' with
        | e :: src'' =>
            if Ascii.eqb e "s" then flush (parse_items src'' (Some Space))
            else if in_string e syntax_chars
                 then flush (parse_items src'' (Some (Chr e)))
                 else None
        | [] => None
        end
      else if in_string c syntax_chars then None
      else flush (parse_items src' (Some (Chr c)))
  end.

(** [new RegExp(source, flags)] for the flags [g] and none; [None] when
    the source or the flags are outside the fragment, or no pattern at
    all. *)
Definition new_RegExp (source flags : string) : option RegExp :=
  match parse_items (list_ascii_of_string source) None with
  | Some items =>
      if flags =? "g" then Some (mkRegExp items true)
      else if flags =? "" then Some (mkRegExp items false)
      else None
  | None => None
  end.

Definition atom_matches (a : atom) (c : ascii) : bool :=
  match a with
  | Chr c' => Ascii.eqb c c'
  | Space => is_space c
  end.

(** The length of the match of the pattern at the start of [s]: a star is
    greedy and gives characters back when the rest of the pattern fails. *)
Fixpoint match_here (p : list item) (s : string) {struct p} : option nat :=
  match p with
  | [] => Some 0
  | One a :: p' =>
      match s with
      | String c s' =>
          if atom_matches a c then option_map S (match_here p' s') else None
      | EmptyString => None
      end
  | Star a :: p' =>
      (fix star (s : string) {struct s} : option nat :=
         match s with
         | String c s' =>
             if atom_matches a c then
               match star s' with
               | Some n => Some (S n)
               | None => match_here p' s
               end
             else match_here p' s
         | EmptyString => match_here p' s
         end) s
  end.

(** The replacement patterns of [String.prototype.replace]: [$$], [$&],
    [$`] and [$'].  A pattern of the fragment has no capture group, so
    [$1] and the like stand for themselves. *)
Fixpoint expand (repl matched before after : string) : string :=
  match repl with
  | EmptyString => EmptyString
  | String d rest =>
      if Ascii.eqb d "$" then
        match rest with
        | String c rest' =>
            if Ascii.eqb c "$" then String "$" (expand rest' matched before after)
            else if Ascii.eqb c "&" then matched ++ expand rest' matched before after
            else if Ascii.eqb c "`" then before ++ expand rest' matched before after
            else if Ascii.eqb c "'" then after ++ expand rest' matched before after
            else String d (expand rest matched before after)
        | EmptyString => String d EmptyString
        end
      else String d (expand rest matched before after)
  end.

(** [s.replace(rx, repl)], scanning [s] from the left.  [before] is the
    text already passed, [skip] the number of characters of the current
    match still to pass, [active] whether a further match is looked for. *)
Fixpoint replace_from (p : list item) (global : bool) (repl : string)
    (before s : string) (skip : nat) (active : bool) {struct s} : string :=
  match skip with
  | S k =>
      match s with
      | String c s' =>
          replace_from p global repl (before ++ String c EmptyString) s' k active
      | EmptyString => EmptyString
      end
  | O =>
      if active then
        match match_here p s with
        | Some n =>
            expand repl (substring 0 n s) before
                   (substring n (String.length s - n) s)
            ++ match s with
               | String c s' =>
                   match n with
                   | O => String c (replace_from p global repl
                                      (before ++ String c EmptyString) s' 0 global)
                   | S m => replace_from p global repl
                              (before ++ String c EmptyString) s' m global
                   end
               | EmptyString => EmptyString
               end
        | None =>
            match s with
            | String c s' =>
                String c (replace_from p global repl
                            (before ++ String c EmptyString) s' 0 active)
            | EmptyString => EmptyString
            end
        end
      else s
  end.

(** [s.replace(rx, repl)]; the replacement is converted to a string.  (A
    function given as replacement would be called for every match: the
    statements below are about contents that are strings.) *)
Definition js_replace (rx : RegExp) (repl : value) (s : string) : string :=
  replace_from (rx_items rx) (rx_global rx) (to_str repl) EmptyString s 0 true.

(** [str.replace(/[\]()[{|}]/g, '\\$&')]: a backslash before each of the
    characters [ ] ( ) [ { | } ]. *)
Fixpoint escape_tag (s : string) : string :=
  match s with
  | EmptyString => EmptyString
  | String c s' =>
      if in_string c "]()[{|}"
      then String "\" (String c (escape_tag s'))
      else String c (escape_tag s')
  end.

(* ================================================================== *)
(** ** The collaborators the program imports *)
(* ================================================================== *)

(** The packages whose code decides nothing here but whose results flow
    through the program: the [falsey] predicate, [delims.templates] (the
    renderer settings for a delimiter pair), the renderer [_.template]
    ([None] when it throws) and the functions a caller may install as
    [mergeFn] (the first argument after the call; [None] when it throws).
    They are taken as functions of their arguments, which leave the
    instance alone. *)
Class Externals : Type := {
  isFalsey : value -> bool;
  delims_templates : value -> value;
  template : string -> value -> value -> option string;
  foreignFn : string -> value -> value -> option value
}.

(** Modelled from the spec: the values "the falsey predicate accepts, e.g.
    empty string, "false", "null", "nil", "no", 0", besides [false]. *)
Definition falsey (v : value) : bool :=
  negb (truthy v)
  || match v with
     | VStr s => existsb (String.eqb s) ["false"; "null"; "nil"; "no"]
     | _ => false
     end.

(* ================================================================== *)
(** ** The instance *)
(* ================================================================== *)

(** [this]: the fields [options], [cache] and [regex] ([None] until
    [stack] has run). *)
Record Layouts : Type := mkLayouts {
  this_options : value;
  this_cache : value;
  this_regex : option RegExp
}.

Definition with_options (this : Layouts) (o : value) : Layouts :=
  mkLayouts o (this_cache this) (this_regex this).

Definition with_regex (this : Layouts) (rx : RegExp) : Layouts :=
  mkLayouts (this_options this) (this_cache this) (Some rx).

(** How a call ends: with a value, with an exception (or outside what the
    embedding covers: a pattern outside the fragment, an assignment that
    [put] does not follow), or never. *)
Inductive outcome (A : Type) : Type :=
| Ok (a : A)
| Throw
| Diverge.
Arguments Ok {A} a.
Arguments Throw {A}.
Arguments Diverge {A}.

(** A method that may change the instance: the changes made before an
    exception stay. *)
Definition M (A : Type) : Type := Layouts -> outcome A * Layouts.

Definition ret {A} (a : A) : M A := fun this => (Ok a, this).

Definition bind {A B} (m : M A) (k : A -> M B) : M B :=
  fun this =>
    match m this with
    | (Ok a, this') => k a this'
    | (Throw, this') => (Throw, this')
    | (Diverge, this') => (Diverge, this')
    end.

Notation "x <- m ;; k" := (bind m (fun x => k))
  (at level 61, m at next level, right associativity).

Definition throw {A} : M A := fun this => (Throw, this).
Definition diverge {A} : M A := fun this => (Diverge, this).
Definition self : M Layouts := fun this => (Ok this, this).
Definition update (f : Layouts -> Layouts) : M unit :=
  fun this => (Ok tt, f this).

Definition of_option {A} (o : option A) : M A :=
  match o with Some a => ret a | None => throw end.

(** The function [merge] as a value. *)
Definition merge_fn : value := VFun "mixin-deep".

(** [this.option(key)]. *)
Definition option_get (this : Layouts) (key : string) : value :=
  get (this_options this) key.

(** [this.options[key] = value; return this]. *)
Definition option_put (key : string) (v : value) : M value :=
  fun this =>
    match put (this_options this) key v with
    | Some options => (Ok VThis, with_options this options)
    | None => (Throw, this)
    end.

(** [this.option(key, value)] and [this.option(object, ...)]. *)
Definition option_ (args : list value) : M value :=
  fun this =>
    match args with
    | [VStr key] => (Ok (option_get this key), this)
    | key :: rest =>
        if isObject key
        then (Ok VThis, with_options this (merge (this_options this) args))
        else option_put (to_str key) (nth 0 rest VUndefined) this
    | [] => option_put "undefined" VUndefined this
    end.

Definition option_set (key : string) (v : value) (this : Layouts) : Layouts :=
  snd (option_ [VStr key; v] this).

Definition defaultOptions (this : Layouts) : Layouts :=
  let this := option_set "locals" (VObj []) this in
  let this := option_set "omitKeys"
                (VArr [VStr "mergeFn"; VStr "content"; VStr "delims";
                       VStr "layout"]) this in
  let this := option_set "mergeFn" merge_fn this in
  let this := option_set "layoutDelims" (VArr [VStr "{%="; VStr "%}"]) this in
  option_set "defaultTag"
    (VObj [("delims", VArr [VStr "{%="; VStr "%}"]); ("tag", VStr "body")])
    this.

(** [new Layouts(options)].  When [options.cache] is given, the source
    shares that object between [this.cache] and [this.options.cache]; the
    embedding keeps [this.cache] as the store. *)
Definition new_Layouts (options : value) : Layouts :=
  let options := js_or options (VObj []) in
  defaultOptions
    (mkLayouts options (js_or (get options "cache") (VObj [])) None).

(* ------------------------------------------------------------------ *)
(** *** The tag builder *)

Definition makeTag (this : Layouts) (options : value) : string :=
  let defaultTag := option_get this "defaultTag" in
  let opts := merge (VObj []) [defaultTag; options] in
  let delims := js_or (get opts "delims") (VArr [VStr "{%="; VStr "%}"]) in
  let tag := js_or (get opts "tag") (VStr "body") in
  join_with (to_str (js_or (get opts "sep") (VStr " ")))
    (map join_elem [get_idx delims 0; tag; get_idx delims 1]).

Definition makeRegex (this : Layouts) (options : value) : option RegExp :=
  let opts := merge (VObj [("sep", VStr "\s*")]) [this_options this; options] in
  let tag := escape_tag (makeTag this opts) in
  new_RegExp tag (to_str (js_or (get opts "flags") (VStr "g"))).

Definition replaceTag (this : Layouts) (str : value) (content : string)
    (options : value) : option string :=
  option_map (fun rx => js_replace rx str content) (makeRegex this options).

(** [{}.hasOwnProperty.call(v, k)], which throws on [null] and
    [undefined]. *)
Definition hasOwn_call (v : value) (k : string) : option bool :=
  match v with
  | VUndefined | VNull => None
  | _ => Some (hasOwn v k)
  end.

(** [pickLayout(value, key)]; [None] when a [hasOwn] test throws. *)
Definition pickLayout (v : value) (key : string) : option value :=
  if key =? "layout" then Some v
  else if isObject v then
    match (if hasOwn v "options"
           then hasOwn_call (get v "options") "layout"
           else Some false) with
    | None => None
    | Some true => Some (get (get v "options") "layout")
    | Some false =>
        match (if hasOwn v "locals"
               then hasOwn_call (get v "locals") "layout"
               else Some false) with
        | None => None
        | Some true => Some (get (get v "locals") "layout")
        | Some false => Some VNull
        end
    end
  else Some VNull.

Definition getLayout (this : Layouts) (key : value) : value :=
  if truthy key then get (this_cache this) (to_str key) else this_cache this.

(* ================================================================== *)
(** ** The resolver, the folder and [render] *)
(* ================================================================== *)

Section Methods.

Context {E : Externals}.

(** [assertLayout(value, defaultLayout)]. *)
Definition assertLayout (v defaultLayout : value) : value :=
  if strict_eq v (VBool false) || (truthy v && isFalsey v) then VNull
  else if negb (truthy v) || strict_eq v (VBool true)
       then js_or defaultLayout VNull
  else v.

(** [this.cache[name]]: the name is converted to a property key, and the
    store answers with a record of its own or with what it inherits. *)
Definition cached (this : Layouts) (name : value) : value :=
  get (this_cache this) (to_str name).

(** [template.layout || (template.data && template.data.layout)]. *)
Definition layout_of (tmpl : value) : value :=
  js_or (get tmpl "layout")
        (js_and (get tmpl "data") (get (get tmpl "data") "layout")).

(** The [while] loop of [createStack]: [None] when [fuel] iterations do
    not reach its end. *)
Fixpoint createStack_loop (fuel : nat) (this : Layouts) (opts : value)
    (name prev : value) (stack : list value) : option (list value) :=
  match fuel with
  | O => None
  | S fuel' =>
      if truthy name && negb (strict_eq prev name)
         && truthy (cached this name)
      then
        let tmpl := cached this name in
        let layout := layout_of tmpl in
        createStack_loop fuel' this opts
          (assertLayout layout (get opts "defaultLayout"))
          name (name :: stack)
      else Some stack
  end.

Definition createStack (fuel : nat) (this : Layouts) (name options : value)
  : option (list value) :=
  let opts := merge (VObj []) [this_options this; options] in
  let name := assertLayout name (option_get this "defaultLayout") in
  createStack_loop fuel this opts name VNull [].

(** [mergeFn(locals, source)]: the first argument after the call. *)
Definition call_mergeFn (f locals source : value) : option value :=
  match f with
  | VFun src =>
      if strict_eq f merge_fn then Some (merge locals [source])
      else foreignFn src locals source
  | _ => None
  end.

(** [_mergeData(template)]: the template's [locals] and [data] are merged
    into the instance's [locals] option, and the instance is returned. *)
Definition _mergeData (tmpl : value) : M value :=
  this <- self ;;
  let omitKeys := option_get this "omitKeys" in
  let mergeFn := option_get this "mergeFn" in
  let locals := option_get this "locals" in
  let data := VObj [] in
  let data := merge data [get tmpl "locals"] in
  let data := merge data [get tmpl "data"] in
  locals' <- of_option (call_mergeFn mergeFn locals (omit data omitKeys)) ;;
  _ <- update (fun this =>
                 if hasOwn (this_options this) "locals"
                 then with_options this (set (this_options this) "locals" locals')
                 else this) ;;
  ret VThis.

(** [_defaultLayout(context, options)]: the body variable, the context and
    the renderer settings. *)
Definition _defaultLayout (this : Layouts) (context options : value)
  : string * value * value :=
  let tagopts := option_get this "defaultTag" in
  let options := merge (VObj []) [options] in
  let tagopts :=
    if hasOwn options "delims" && hasOwn options "tag"
    then pick options ["delims"; "tag"] else tagopts in
  let settings := delims_templates (get tagopts "delims") in
  let tag := makeTag this tagopts in
  let settings :=
    merge settings [options; VObj [("interpolate", get settings "evaluate")]] in
  (tag, options, settings).

(** [renderLayout(str, context, options)]. *)
Definition renderLayout (this : Layouts) (str : string)
    (context options : value) : option string :=
  let '(variable, _, settings) := _defaultLayout this context options in
  let ctx := merge (VObj [])
               [context; option_get this "locals";
                VObj [("body", VStr variable)]] in
  template str ctx settings.

(** The accumulator of the fold in [stack]; [{}] at the start. *)
Record folded : Type := mkFolded {
  acc_data : value;
  acc_content : value;
  acc_regex : option RegExp;
  acc_tag : value
}.

Definition empty_acc : folded := mkFolded VUndefined VUndefined None VUndefined.

(** The callback [stack] hands to [reduce]. *)
Definition stack_step (tag : value) (acc : folded) (name : value) : M folded :=
  this <- self ;;
  let content := js_or (acc_content acc) tag in
  let tmpl := cached this name in
  data <- _mergeData tmpl ;;
  this <- self ;;
  match content, this_regex this with
  | VStr content, Some rx =>
      let content := js_replace rx (get tmpl "content") content in
      content <- of_option (renderLayout this content data (this_options this)) ;;
      ret (mkFolded data (VStr content) (this_regex this) tag)
  | _, _ => throw
  end.

(** [reduce(stack, callback, {})] over the array, first name first. *)
Fixpoint reduce (tag : value) (names : list value) (acc : folded) : M folded :=
  match names with
  | [] => ret acc
  | name :: names' =>
      acc' <- stack_step tag acc name ;;
      reduce tag names' acc'
  end.

(** [stack(name, options)] from its second statement on, [names] being
    the stack that [createStack] returned. *)
Definition stack_fold (names : list value) (options : value) : M folded :=
  _ <- update (fun this =>
                 with_options this (merge (this_options this) [options])) ;;
  this <- self ;;
  let opts := this_options this in
  let tag := js_or (VStr (makeTag this opts)) VUndefined in
  rx <- of_option (makeRegex this opts) ;;
  _ <- update (fun this => with_regex this rx) ;;
  reduce tag names empty_acc.

(** [stack(name, options)]. *)
Definition stack (fuel : nat) (name options : value) : M folded :=
  this <- self ;;
  match createStack fuel this name options with
  | None => diverge
  | Some names => stack_fold names options
  end.

(** What [render] returns. *)
Record rendered : Type := mkRendered {
  r_data : value;
  r_content : value
}.

(** [render(content, name, options)]. *)
Definition render (fuel : nat) (content name options : value) : M rendered :=
  layout <- stack fuel name options ;;
  this <- self ;;
  if truthy (acc_content layout) then
    match acc_content layout, this_regex this with
    | VStr folded_content, Some rx =>
        ret (mkRendered (acc_data layout)
               (VStr (js_replace rx content folded_content)))
    | _, _ => throw
    end
  else ret (mkRendered (acc_data layout) content).

End Methods.

(* ================================================================== *)
(** ** Vocabulary of the statements *)
(* ================================================================== *)

Section Vocabulary.

Context {E : Externals}.

(** The test of the [while] loop of [createStack]. *)
Definition pushable (this : Layouts) (name prev : value) : bool :=
  truthy name && negb (strict_eq prev name) && truthy (cached this name).

(** The name the loop goes on with after it has pushed [name]. *)
Definition next_name (this : Layouts) (opts name : value) : value :=
  assertLayout (layout_of (cached this name)) (get opts "defaultLayout").

(** The states [name, prev, stack] the loop passes through, from a given
    one on. *)
Inductive visits (this : Layouts) (opts : value)
  : value -> value -> list value -> value -> value -> list value -> Prop :=
| visits_here : forall name prev stk,
    visits this opts name prev stk name prev stk
| visits_push : forall name prev stk name' prev' stk',
    pushable this name prev = true ->
    visits this opts (next_name this opts name) name (name :: stk)
           name' prev' stk' ->
    visits this opts name prev stk name' prev' stk'.

(** A name, or a value at which the loop stops. *)
Definition name_like (v : value) : bool :=
  match v with
  | VStr _ => true
  | _ => negb (truthy v)
  end.

(** The records of the store. *)
Definition store_entries (this : Layouts) : list (string * value) :=
  match this_cache this with
  | VObj entries => entries
  | _ => []
  end.

(** The number of records of the store. *)
Definition store_size (this : Layouts) : nat :=
  List.length (store_entries this).

(** A value the loop stops at, or the name of a record that the store
    holds as a property of its own. *)
Definition registered (this : Layouts) (name : value) : bool :=
  negb (truthy name)
  || negb (truthy (cached this name))
  || hasOwn (this_cache this) (to_str name).

(** [rank] goes down along every layout reference that the loop follows
    from a record of the store, the default layout that stands in for a
    missing reference included: the name the loop goes on with after a
    record is the name of that record, a name the store answers nothing
    to, nothing, or the name of a record of the store's own of lower
    rank. *)
Definition descends (rank : string -> nat) (this : Layouts) (opts : value)
  : bool :=
  forallb
    (fun kv =>
       negb (truthy (cached this (VStr (fst kv))))
       || match next_name this opts (VStr (fst kv)) with
          | VStr k' =>
              (k' =? fst kv)
              || negb (truthy (cached this (VStr k')))
              || (hasOwn (this_cache this) k'
                  && Nat.ltb (rank k') (rank (fst kv)))
          | v => negb (truthy v)
          end)
    (store_entries this).


(** The own properties of the instance. *)
Definition instance_keys (this : Layouts) : list string :=
  match this_regex this with
  | Some _ => ["options"; "cache"; "regex"]
  | None => ["options"; "cache"]
  end.


End Vocabulary.

(** The collaborators of a store whose layouts hold no renderer
    expression but the body tag: the renderer gives the text back. *)
Definition plain : Externals := {|
  isFalsey := falsey;
  delims_templates := fun _ => VObj [];
  template := fun str _ _ => Some str;
  foreignFn := fun _ _ _ => None
|}.

(** A record of the store. *)
Definition record (content : string) (layout : value) (data : obj) : value :=
  VObj [("content", VStr content); ("layout", layout); ("data", VObj data)].

(** [a] uses [b], [b] uses nothing. *)
Definition chain_store : Layouts :=
  new_Layouts
    (VObj [("cache",
            VObj [("a", record "<a>{%= body %}</a>" (VStr "b") []);
                  ("b", record "<b>{%= body %}</b>" VNull [])])]).

(** [a] uses [b] and [b] uses [a]. *)
Definition cyclic_store : Layouts :=
  new_Layouts
    (VObj [("cache",
            VObj [("a", record "<a>{%= body %}</a>" (VStr "b") []);
                  ("b", record "<b>{%= body %}</b>" (VStr "a") [])])]).


(** The store of the data-merge scenario, and a second layout without
    data. *)
Definition titled_store : Layouts :=
  new_Layouts
    (VObj [("cache",
            VObj [("a", VObj [("content", VStr "{%= body %}");
                              ("data", VObj [("title", VStr "A")])]);
                  ("b", VObj [("content", VStr "{%= body %}")])])]).

(** The regular expression of the default body tag, [{%= body %}] with
    any white space around the tag name. *)
Definition default_regex : RegExp :=
  mkRegExp [One (Chr "{"); One (Chr "%"); One (Chr "="); Star Space;
            One (Chr "b"); One (Chr "o"); One (Chr "d"); One (Chr "y");
            Star Space; One (Chr "%"); One (Chr "}")] true.

(** [a] refers to a layout that has no record. *)
Definition dangling_store : Layouts :=
  new_Layouts
    (VObj [("cache",
            VObj [("a", record "<a>{%= body %}</a>" (VStr "missing") [])])]).

(* ================================================================== *)
(** ** The template store *)
(* ================================================================== *)

Section Store.

(** [load-templates]: [loader(opts)] applied to the arguments of
    [setLayout] gives the normalised mapping of names to records ([None]
    when it throws). *)
Variable loader : value -> list value -> option value.

(** [load(options)]. *)
Definition load (this : Layouts) (options : value)
  : list value -> option value :=
  loader (merge (VObj []) [this_options this; options]).

(** The callback [setLayout] hands to [reduce], on one entry of the
    mapping: [value.layout = layout] when [pickLayout] finds a layout.
    The assignment throws on a value that is not an object (the file is
    in strict mode); under the key [layout] it would make the record its
    own layout, and on an array or a function it would add a property:
    these two are outside the embedding. *)
Definition setLayout_entry (kv : string * value) : option (string * value) :=
  match pickLayout (snd kv) (fst kv) with
  | None => None
  | Some layout =>
      if truthy layout then
        match snd kv with
        | VObj _ =>
            if fst kv =? "layout" then None
            else Some (fst kv, set (snd kv) "layout" layout)
        | _ => None
        end
      else Some kv
  end.

Fixpoint setLayout_entries (entries : list (string * value))
  : option (list (string * value)) :=
  match entries with
  | [] => Some []
  | kv :: rest =>
      match setLayout_entry kv, setLayout_entries rest with
      | Some kv', Some rest' => Some (kv' :: rest')
      | _, _ => None
      end
  end.

(** [setLayout(name, data, content)], [args] being its arguments.  A
    mapping that is [null] or [undefined] has no entry and is not merged;
    any other value that is not a plain object is outside the
    embedding. *)
Definition setLayout (args : list value) : M value :=
  this <- self ;;
  template <- of_option (load this VUndefined args) ;;
  match template with
  | VObj entries =>
      entries' <- of_option (setLayout_entries entries) ;;
      _ <- update (fun this =>
                     mkLayouts (this_options this)
                       (merge (this_cache this) [VObj entries'])
                       (this_regex this)) ;;
      ret VThis
  | _ => if truthy template then throw else ret VThis
  end.

End Store.

(* ================================================================== *)
(** ** Further vocabulary *)
(* ================================================================== *)

(** The pattern of a literal text. *)
Definition lits (s : string) : list item :=
  map (fun c => One (Chr c)) (list_ascii_of_string s).

(** A character that stands for itself in the pattern [makeRegex]
    compiles: one without a meaning in a pattern, or one that
    [escape_tag] escapes. *)
Definition plain_char (c : ascii) : bool :=
  negb (in_string c syntax_chars) || in_string c "]()[{|}".

Definition plain_text (s : string) : bool :=
  forallb plain_char (list_ascii_of_string s).

Definition all_space (s : string) : bool :=
  forallb is_space (list_ascii_of_string s).

Definition no_lead_space (s : string) : bool :=
  match s with
  | EmptyString => true
  | String c _ => negb (is_space c)
  end.

(** A replacement text without replacement patterns. *)
Definition no_dollar (s : string) : bool := negb (in_string "$" s).

(** Whether the pattern matches somewhere in the text. *)
Fixpoint occurs (p : list item) (s : string) : bool :=
  match match_here p s with
  | Some _ => true
  | None =>
      match s with
      | String _ s' => occurs p s'
      | EmptyString => false
      end
  end.



(** Whether a pattern source goes on with something else than a star. *)
Definition no_lead_star (src : list ascii) : Prop :=
  match src with
  | c :: _ => Ascii.eqb c "*" = false
  | [] => True
  end.

(** Per-call options with a delimiter pair and a tag name. *)
Definition custom_tag (d0 d1 t : string) : value :=
  VObj [("delims", VArr [VStr d0; VStr d1]); ("tag", VStr t)].

(** The keys of an object are pairwise distinct. *)
Definition distinct_keys (o : obj) : Prop := NoDup (map fst o).

(** A loader for the examples: it gives back its first argument. *)
Definition first_argument (opts : value) (args : list value) : option value :=
  match args with
  | v :: _ => Some v
  | [] => None
  end.

(** A store with a default layout [d]; the record of [n] says
    [layout: false]. *)
Definition default_store : Layouts :=
  new_Layouts
    (VObj [("defaultLayout", VStr "d");
           ("cache",
            VObj [("n", VObj [("content", VStr "<n>{%= body %}</n>");
                              ("layout", VBool false)]);
                  ("d", VObj [("content", VStr "<d>{%= body %}</d>")])])]).




(** [a] refers to [toString], a name the store has no record for but
    that every object answers to. *)
Definition inherited_store : Layouts :=
  new_Layouts
    (VObj [("cache",
            VObj [("a", record "<a>{%= body %}</a>" (VStr "toString") [])])]).

(** An instance with one record, [base], that has a layout of its own
    and a title. *)
Definition one_store : Layouts :=
  new_Layouts
    (VObj [("cache",
            VObj [("base", VObj [("content", VStr "old {%= body %}");
                                 ("layout", VStr "root");
                                 ("title", VStr "Base")])])]).

(** A layout without a body tag. *)
Definition tagless_store : Layouts :=
  new_Layouts
    (VObj [("cache",
            VObj [("note", VObj [("content", VStr "no place for a page")])])]).

(** A layout with locals and data that share keys. *)
Definition mixed_store : Layouts :=
  new_Layouts
    (VObj [("cache",
            VObj [("a", VObj [("content", VStr "{%= body %}");
                              ("locals", VObj [("title", VStr "local");
                                               ("layout", VStr "x")]);
                              ("data", VObj [("title", VStr "data");
                                             ("content", VStr "y")])])])]).

(** A record that names its layout in its data, and one that names
    itself. *)
Definition data_store : Layouts :=
  new_Layouts
    (VObj [("cache",
            VObj [("a", VObj [("content", VStr "<a>{%= body %}</a>");
                              ("layout", VBool false);
                              ("data", VObj [("layout", VStr "b")])]);
                  ("b", VObj [("content", VStr "<b>{%= body %}</b>")]);
                  ("s", VObj [("content", VStr "<s>{%= body %}</s>");
                              ("layout", VStr "s")])])]).

(* ================================================================== *)
(** ** Objects *)
(* ================================================================== *)

(** Opens the monad of the methods. *)
Ltac run_M := unfold bind, self, update, ret, throw, diverge, of_option.

Example escape_default_tag :
  escape_tag "{%=\s*body\s*%}" = "\{%=\s*body\s*%\}".
Proof. reflexivity. Qed.

Example parse_default_tag :
  parse_items (list_ascii_of_string "\{%=\s*body\s*%\}") None
  = Some [One (Chr "{"); One (Chr "%"); One (Chr "="); Star Space;
          One (Chr "b"); One (Chr "o"); One (Chr "d"); One (Chr "y");
          Star Space; One (Chr "%"); One (Chr "}")].
Proof. reflexivity. Qed.

Lemma lookup_assign_same (k : string) (v : value) (o : obj) :
  lookup k (assign k v o) = Some v.
Proof.
  induction o as [|[k' v'] o IH]; simpl.
  - now rewrite String.eqb_refl.
  - destruct (k =? k') eqn:Hk; simpl; rewrite ?String.eqb_refl, ?Hk; auto.
Qed.

Lemma lookup_assign_other (k k' : string) (v : value) (o : obj) :
  k <> k' -> lookup k (assign k' v o) = lookup k o.
Proof.
  intros Hne. apply String.eqb_neq in Hne.
  induction o as [|[k0 v0] o IH]; simpl.
  - now rewrite Hne.
  - destruct (k' =? k0) eqn:Hk; simpl.
    + apply String.eqb_eq in Hk. subst k0. now rewrite Hne.
    + now rewrite IH.
Qed.


Lemma get_set_same (o : obj) (k : string) (v : value) :
  get (set (VObj o) k v) k = v.
Proof. simpl. now rewrite lookup_assign_same. Qed.

(** A property of its own hides the one the object inherits. *)
Lemma get_own (o : obj) (k : string) (v : value) :
  lookup k o = Some v -> get (VObj o) k = v.
Proof. intros H. simpl. now rewrite H. Qed.

(** Two objects with the same own property under a name answer the same
    under it. *)
Lemma get_lookup (o o' : obj) (k : string) :
  lookup k o = lookup k o' -> get (VObj o) k = get (VObj o') k.
Proof. intros H. simpl. now rewrite H. Qed.

(** What [Object.prototype] holds under a name is a function or
    nothing. *)
Lemma method_of_Object_cases (k : string) :
  method_of_Object k = VUndefined
  \/ (exists name, method_of_Object k = native name).
Proof.
  unfold method_of_Object, Object_prototype. cbn [lookup].
  repeat match goal with
         | |- context [if ?b then _ else _] => destruct b; [right; eexists; reflexivity|]
         end.
  now left.
Qed.

(** No plain object is inherited: a record that a store answers with is a
    record of its own. *)
Lemma inherited_not_object (k : string) : isObject (inherited k) = false.
Proof.
  unfold inherited. destruct (k =? "__proto__"); [reflexivity|].
  destruct (method_of_Object_cases k) as [->|[name ->]]; reflexivity.
Qed.

Lemma get_object_own (o : obj) (k : string) (r : obj) :
  get (VObj o) k = VObj r -> lookup k o = Some (VObj r).
Proof.
  simpl. destruct (lookup k o) as [x|]; [now intros ->|].
  intros H. pose proof (inherited_not_object k) as Hi.
  rewrite H in Hi. discriminate.
Qed.

Lemma get_Object_prototype (k : string) : isObject (get VProto k) = false.
Proof.
  simpl. destruct (k =? "__proto__"); [reflexivity|].
  destruct (method_of_Object_cases k) as [->|[name ->]]; reflexivity.
Qed.

Lemma lookup_In (k : string) (v : value) (o : obj) :
  lookup k o = Some v -> In (k, v) o.
Proof.
  induction o as [|[k' v'] o IH]; simpl; [discriminate|].
  destruct (k =? k') eqn:Hk.
  - apply String.eqb_eq in Hk. intros [= ->]. subst. now left.
  - intros H. right. auto.
Qed.

(** A name that a plain object has a property of its own for is one of
    its keys. *)
Lemma hasOwn_In (o : value) (k : string) :
  isObject o = true -> hasOwn o k = true ->
  exists entries v, o = VObj entries /\ In (k, v) entries.
Proof.
  destruct o; simpl; try discriminate.
  destruct (lookup k fields) eqn:Hl; simpl; [|discriminate].
  intros _ _. exists fields, v. split; auto using lookup_In.
Qed.

(* ================================================================== *)
(** ** The resolver *)
(* ================================================================== *)

Section Resolver.

Context {E : Externals}.
Variables (this : Layouts) (opts : value).

Lemma createStack_loop_step (fuel : nat) (name prev : value) (stk : list value) :
  createStack_loop (S fuel) this opts name prev stk =
  if pushable this name prev
  then createStack_loop fuel this opts (next_name this opts name) name
         (name :: stk)
  else Some stk.
Proof. reflexivity. Qed.

(** The loop only ever adds to the front of the stack it was given. *)
Lemma createStack_loop_stack (fuel : nat) :
  forall name prev stk,
    createStack_loop fuel this opts name prev stk =
    option_map (fun r => r ++ stk)
               (createStack_loop fuel this opts name prev []).
Proof.
  induction fuel as [|fuel IH]; intros name prev stk; [reflexivity|].
  rewrite !createStack_loop_step.
  destruct (pushable this name prev); [|reflexivity].
  rewrite (IH _ _ (name :: stk)), (IH _ _ [name]).
  destruct (createStack_loop fuel this opts _ name []); simpl; [|reflexivity].
  now rewrite <- app_assoc.
Qed.

(** More iterations than needed change nothing. *)
Lemma createStack_loop_more (fuel : nat) :
  forall fuel' name prev stk r,
    fuel <= fuel' ->
    createStack_loop fuel this opts name prev stk = Some r ->
    createStack_loop fuel' this opts name prev stk = Some r.
Proof.
  induction fuel as [|fuel IH]; intros fuel' name prev stk r Hle; [discriminate|].
  destruct fuel' as [|fuel']; [lia|].
  rewrite !createStack_loop_step.
  destruct (pushable this name prev); auto.
  apply IH. lia.
Qed.

Lemma createStack_loop_unique (f1 f2 : nat) (name prev : value)
    (stk r1 r2 : list value) :
  createStack_loop f1 this opts name prev stk = Some r1 ->
  createStack_loop f2 this opts name prev stk = Some r2 ->
  r1 = r2.
Proof.
  intros H1 H2.
  destruct (Nat.le_ge_cases f1 f2) as [Hle|Hle].
  - eapply createStack_loop_more in H1; [|exact Hle]. congruence.
  - eapply createStack_loop_more in H2; [|exact Hle]. congruence.
Qed.

(** Every name of the result was pushed at some iteration, and the part of
    the result in front of it is what the loop returns from there. *)
Lemma createStack_loop_member (fuel : nat) :
  forall name prev r v,
    createStack_loop fuel this opts name prev [] = Some r ->
    In v r ->
    exists fuel' later earlier,
      r = later ++ v :: earlier /\
      truthy (cached this v) = true /\
      createStack_loop fuel' this opts (next_name this opts v) v []
      = Some later.
Proof.
  induction fuel as [|fuel IH]; intros name prev r v; [discriminate|].
  rewrite createStack_loop_step.
  destruct (pushable this name prev) eqn:Hp.
  - rewrite createStack_loop_stack.
    destruct (createStack_loop fuel this opts _ name []) as [r0|] eqn:Hr0;
      simpl; [|discriminate].
    intros [= <-] Hin. apply in_app_or in Hin. destruct Hin as [Hin|Hin].
    + destruct (IH _ _ _ _ Hr0 Hin) as (f' & later & earlier & -> & Hc & Hl).
      exists f', later, (earlier ++ [name]). split; [|split]; auto.
      now rewrite <- app_assoc.
    + destruct Hin as [<-|[]].
      exists fuel, r0, []. split; [|split]; auto.
      unfold pushable in Hp. now apply andb_prop in Hp.
  - intros [= <-] [].
Qed.

Lemma createStack_loop_NoDup (fuel : nat) :
  forall name prev r,
    createStack_loop fuel this opts name prev [] = Some r -> NoDup r.
Proof.
  induction fuel as [|fuel IH]; intros name prev r; [discriminate|].
  rewrite createStack_loop_step.
  destruct (pushable this name prev); [|intros [= <-]; constructor].
  rewrite createStack_loop_stack.
  destruct (createStack_loop fuel this opts _ name []) as [r0|] eqn:Hr0;
    simpl; [|discriminate].
  intros [= <-].
  apply NoDup_app; [eauto|repeat constructor; simpl; tauto|].
  intros v Hin [<-|[]].
  destruct (createStack_loop_member _ _ _ _ Hr0 Hin)
    as (f' & later & earlier & Heq & _ & Hl).
  assert (later = r0) by (eapply createStack_loop_unique; eauto).
  subst later. apply (f_equal (@List.length value)) in Heq.
  rewrite length_app in Heq. simpl in Heq. lia.
Qed.

(** The store answers something truthy under every name of the
    result. *)
Lemma createStack_loop_cached (fuel : nat) (name prev : value) (r : list value) :
  createStack_loop fuel this opts name prev [] = Some r ->
  Forall (fun v => truthy (cached this v) = true) r.
Proof.
  intros Hr. apply Forall_forall. intros v Hin.
  destruct (createStack_loop_member _ _ _ _ Hr Hin) as (_ & _ & _ & _ & Hc & _).
  exact Hc.
Qed.

(** From a state the loop passes through, it returns what it returns from
    the start. *)
Lemma visits_result (name prev : value) (stk : list value)
    (name' prev' : value) (stk' : list value) :
  visits this opts name prev stk name' prev' stk' ->
  forall fuel r,
    createStack_loop fuel this opts name' prev' stk' = Some r ->
    exists fuel0,
      forall fuel', fuel0 <= fuel' ->
        createStack_loop fuel' this opts name prev stk = Some r.
Proof.
  induction 1 as [name prev stk|name prev stk name' prev' stk' Hp Hv IH];
    intros fuel r Hr.
  - exists fuel. intros fuel' Hle. eapply createStack_loop_more; eauto.
  - destruct (IH _ _ Hr) as [fuel0 H0].
    exists (S fuel0). intros [|fuel'] Hle; [lia|].
    rewrite createStack_loop_step, Hp. apply H0. lia.
Qed.

(** The stack of a state the loop passes through holds pushed names
    only. *)
Lemma visits_cached (name prev : value) (stk : list value)
    (name' prev' : value) (stk' : list value) :
  visits this opts name prev stk name' prev' stk' ->
  Forall (fun v => truthy (cached this v) = true) stk ->
  Forall (fun v => truthy (cached this v) = true) stk'.
Proof.
  induction 1 as [|name prev stk name' prev' stk' Hp Hv IH]; auto.
  intros Hall. apply IH. constructor; auto.
  unfold pushable in Hp. now apply andb_prop in Hp.
Qed.

(** Along a ranking that [descends], the loop ends before it has run
    once more than there are records. *)
Lemma createStack_loop_descends (rank : string -> nat) (fuel : nat) :
  isObject (this_cache this) = true ->
  descends rank this opts = true ->
  forall name prev ks,
    name_like name = true ->
    registered this name = true ->
    NoDup ks ->
    incl ks (map fst (store_entries this)) ->
    (forall k, name = VStr k -> pushable this name prev = true ->
               forall k', In k' ks -> rank k < rank k') ->
    store_size this < fuel + List.length ks ->
    exists r,
      createStack_loop fuel this opts name prev (map VStr ks) = Some r /\
      List.length r <= store_size this.
Proof.
  intros Hobj Hd. unfold descends in Hd. rewrite forallb_forall in Hd.
  induction fuel as [|fuel IH];
    intros name prev ks Hname Hreg Hnd Hincl Hrank Hfuel.
  - apply NoDup_incl_length in Hincl; auto.
    rewrite length_map in Hincl. unfold store_size in Hfuel. simpl in Hfuel. lia.
  - rewrite createStack_loop_step.
    destruct (pushable this name prev) eqn:Hp.
    + assert (Hp' := Hp). unfold pushable in Hp'.
      apply andb_prop in Hp'. destruct Hp' as [Hp' Hc].
      apply andb_prop in Hp'. destruct Hp' as [Ht _].
      destruct name as [ | |b|n|k|items|fields|src| | ];
        try (unfold name_like in Hname; rewrite Ht in Hname; discriminate).
      assert (Hown : hasOwn (this_cache this) k = true).
      { unfold registered in Hreg. rewrite Ht, Hc in Hreg. exact Hreg. }
      assert (Hin : In k (map fst (store_entries this))).
      { destruct (hasOwn_In _ _ Hobj Hown) as (entries & v & Hcache & Hin).
        unfold store_entries. rewrite Hcache.
        apply (in_map fst) in Hin. exact Hin. }
      assert (Hk : forall k', In k' ks -> rank k < rank k') by (eapply Hrank; eauto).
      apply in_map_iff in Hin. destruct Hin as ([k0 v0] & Hk0 & Hin).
      simpl in Hk0. subst k0.
      specialize (Hd _ Hin). simpl in Hd. rewrite Hc in Hd. simpl in Hd.
      change (VStr k :: map VStr ks) with (map VStr (k :: ks)).
      apply IH.
      * destruct (next_name this opts (VStr k)); simpl in *; auto.
      * unfold registered.
        destruct (next_name this opts (VStr k)) as [ | |b|n|k'|items|fields|src| | ];
          try (simpl in Hd; discriminate);
          try (simpl in Hd |- *; rewrite ?Hd; reflexivity).
        apply orb_prop in Hd. destruct Hd as [Hd|Hd].
        -- apply orb_prop in Hd. destruct Hd as [Hd|Hd].
           ++ apply String.eqb_eq in Hd. subst k'. simpl to_str.
              rewrite Hown. now rewrite !orb_true_r.
           ++ rewrite Hd. now rewrite orb_true_r.
        -- apply andb_prop in Hd. destruct Hd as [Hd _]. simpl to_str.
           rewrite Hd. now rewrite !orb_true_r.
      * constructor; auto. intros Hin'. apply Hk in Hin'. lia.
      * intros x [<-|Hx]; auto.
        apply in_map_iff. exists (k, v0). auto.
      * intros k' Hn' Hp2 k'' Hin''. rewrite Hn' in Hd, Hp2.
        unfold pushable in Hp2.
        apply andb_prop in Hp2. destruct Hp2 as [Hp2 Hc2].
        apply andb_prop in Hp2. destruct Hp2 as [_ Hne].
        simpl in Hne. rewrite Hc2 in Hd.
        rewrite String.eqb_sym in Hne.
        apply negb_true_iff in Hne. rewrite Hne in Hd. simpl in Hd.
        apply andb_prop in Hd. destruct Hd as [_ Hd].
        apply Nat.ltb_lt in Hd.
        destruct Hin'' as [<-|Hin'']; auto.
        apply Hk in Hin''. lia.
      * simpl. lia.
    + exists (map VStr ks). split; auto.
      apply NoDup_incl_length in Hincl; auto.
      rewrite length_map in *. unfold store_size. lia.
Qed.

End Resolver.

(* ================================================================== *)
(** ** Properties of [createStack] *)
(* ================================================================== *)

(** C9: every stack that [createStack] returns is a sequence of pairwise
    distinct names: whenever the call returns, no name occurs twice in
    the returned array. *)
Theorem createStack_distinct {E : Externals} (fuel : nat) (this : Layouts)
    (name options : value) (stk : list value) :
  createStack fuel this name options = Some stk -> NoDup stk.
Proof.
  unfold createStack. apply createStack_loop_NoDup.
Qed.

Lemma createStack_distinct_witness :
  @createStack plain 3 chain_store (VStr "a") VUndefined
  = Some [VStr "b"; VStr "a"]
  /\ NoDup [VStr "b"; VStr "a"].
Proof.
  split.
  - reflexivity.
  - apply (@createStack_distinct plain 3 chain_store (VStr "a") VUndefined).
    reflexivity.
Defined.

(** X27: When the loop comes to a name [N] under which the store, a plain
    object, answers nothing truthy (it has no record of its own under
    [N], and [N] is not the name of a property of [Object.prototype]),
    [createStack] raises no error and returns the stack accumulated up to
    [N], and [N] is not in that stack. *)
Theorem createStack_missing_reference {E : Externals} (this : Layouts)
    (name options N prev : value) (stk : list value) :
  isObject (this_cache this) = true ->
  visits this (merge (VObj []) [this_options this; options])
         (assertLayout name (option_get this "defaultLayout")) VNull []
         N prev stk ->
  truthy (cached this N) = false ->
  ~ In N stk /\
  exists fuel0, forall fuel, fuel0 <= fuel ->
    createStack fuel this name options = Some stk.
Proof.
  intros _ Hv HN. split.
  - intros Hin.
    apply visits_cached in Hv; [|constructor].
    rewrite Forall_forall in Hv. apply Hv in Hin.
    rewrite HN in Hin. discriminate.
  - assert (Hstop : createStack_loop 1 this
                      (merge (VObj []) [this_options this; options])
                      N prev stk = Some stk).
    { rewrite createStack_loop_step. unfold pushable. rewrite HN.
      now rewrite andb_false_r. }
    destruct (visits_result Hv _ Hstop) as [fuel0 H0].
    exists fuel0. intros fuel Hle. unfold createStack. auto.
Qed.

Lemma createStack_missing_reference_witness :
  @visits plain dangling_store
     (merge (VObj []) [this_options dangling_store; VUndefined])
     (@assertLayout plain (VStr "a") (option_get dangling_store "defaultLayout"))
     VNull [] (VStr "missing") (VStr "a") [VStr "a"]
  /\ ~ In (VStr "missing") [VStr "a"]
  /\ exists fuel0, forall fuel, fuel0 <= fuel ->
       @createStack plain fuel dangling_store (VStr "a") VUndefined
       = Some [VStr "a"].
Proof.
  assert (Hv : @visits plain dangling_store
     (merge (VObj []) [this_options dangling_store; VUndefined])
     (@assertLayout plain (VStr "a") (option_get dangling_store "defaultLayout"))
     VNull [] (VStr "missing") (VStr "a") [VStr "a"]).
  { apply visits_push; [reflexivity|]. apply visits_here. }
  split; [exact Hv|].
  apply (@createStack_missing_reference plain dangling_store (VStr "a")
           VUndefined (VStr "missing") (VStr "a") [VStr "a"] eq_refl Hv).
  reflexivity.
Defined.

(** C7 at a store whose one record, [a], names the layout [toString]: the
    store has no record under that name, yet [this.cache['toString']] is
    the function that every object inherits, the loop takes it for a
    record and [toString] is on the stack that [createStack] returns.
    The fold then reads the [content] of that function, which is
    [undefined]: [render] returns the text [undefined], without the page
    and without the layout [a]. *)
Lemma createStack_inherited_reference :
  hasOwn (this_cache inherited_store) "toString" = false
  /\ cached inherited_store (VStr "toString") = native "toString"
  /\ @createStack plain 3 inherited_store (VStr "a") VUndefined
     = Some [VStr "toString"; VStr "a"]
  /\ fst (@render plain 3 (VStr "<p>page</p>") (VStr "a") VUndefined
            inherited_store)
     = Ok (mkRendered VThis (VStr "undefined")).
Proof. repeat split. Qed.

(* ================================================================== *)
(** ** [assertLayout] *)
(* ================================================================== *)

Section AssertLayout.

Context {E : Externals}.

Lemma assertLayout_name (s : string) (d : value) :
  s <> "" -> isFalsey (VStr s) = false -> assertLayout (VStr s) d = VStr s.
Proof.
  intros Hs Hf. unfold assertLayout. simpl.
  apply String.eqb_neq in Hs. rewrite Hs, Hf. reflexivity.
Qed.

Lemma assertLayout_nothing (v d : value) :
  truthy v = false -> truthy d = false -> assertLayout v d = VNull.
Proof.
  intros Hv Hd. unfold assertLayout, js_or. rewrite Hv, Hd. simpl.
  now destruct (strict_eq v (VBool false)).
Qed.

End AssertLayout.

(** C3, as the code has it: for [false], ['false'], ['null'], ['nil'] and
    ['no'], which the falsey predicate accepts, [assertLayout] returns
    [null] whatever the default layout is; for [''] and [0] it returns the
    default layout, which is ['base'] when the default is ['base']. *)
Theorem assertLayout_falsey_values {E : Externals} (d : value) :
  (forall s, In s ["false"; "null"; "nil"; "no"] -> isFalsey (VStr s) = true) ->
  Forall (fun v => assertLayout v d = VNull)
         [VBool false; VStr "false"; VStr "null"; VStr "nil"; VStr "no"]
  /\ Forall (fun v => assertLayout v d = js_or d VNull) [VStr ""; VNum 0]
  /\ Forall (fun v => assertLayout v (VStr "base") = VStr "base")
            [VStr ""; VNum 0].
Proof.
  intros Hf. split; [|split].
  - constructor; [reflexivity|].
    repeat (constructor;
            [unfold assertLayout; simpl; rewrite Hf; simpl; auto 6|]).
    constructor.
  - repeat constructor.
  - repeat constructor.
Qed.

Lemma assertLayout_falsey_values_witness :
  Forall (fun v => @assertLayout plain v (VStr "base") = VNull)
         [VBool false; VStr "false"; VStr "null"; VStr "nil"; VStr "no"]
  /\ Forall (fun v => @assertLayout plain v (VStr "base")
                      = js_or (VStr "base") VNull) [VStr ""; VNum 0]
  /\ Forall (fun v => @assertLayout plain v (VStr "base") = VStr "base")
            [VStr ""; VNum 0].
Proof.
  apply (@assertLayout_falsey_values plain (VStr "base")).
  intros s Hin. simpl in Hin.
  destruct Hin as [<-|[<-|[<-|[<-|[]]]]]; reflexivity.
Defined.

(** C3 fails as stated: for the empty string and for [0] the result is
    the default layout ['base'], not [null]. *)
Lemma assertLayout_empty_is_default :
  @assertLayout plain (VStr "") (VStr "base") = VStr "base"
  /\ @assertLayout plain (VNum 0) (VStr "base") = VStr "base".
Proof. split; reflexivity. Qed.

(* ================================================================== *)
(** ** The tag builder *)
(* ================================================================== *)

(** C6, as the code has it: with default options the body tag is
    [{%= body %}], and [replaceTag('ABC', 'Before {%= body %} After')]
    returns ['Before ABC After']. *)
Theorem replaceTag_default_tag :
  makeTag (new_Layouts VUndefined) VUndefined = "{%= body %}"
  /\ replaceTag (new_Layouts VUndefined) (VStr "ABC")
       "Before {%= body %} After" VUndefined
     = Some "Before ABC After".
Proof. split; reflexivity. Qed.

(** C6 fails as stated: with default options [{% body %}] is not the body
    tag, and [replaceTag] returns the content as it was. *)
Lemma replaceTag_percent_body_unchanged :
  replaceTag (new_Layouts VUndefined) (VStr "ABC")
    "Before {% body %} After" VUndefined
  = Some "Before {% body %} After".
Proof. reflexivity. Qed.

(* ================================================================== *)
(** ** The folder *)
(* ================================================================== *)

Section Folder.

Context {E : Externals}.




(** [_mergeData] either throws and changes nothing, or returns the
    instance with the [locals] option replaced. *)
Lemma _mergeData_cases (tmpl : value) (this : Layouts) :
  let source :=
    omit (merge (merge (VObj []) [get tmpl "locals"]) [get tmpl "data"])
         (option_get this "omitKeys") in
  match call_mergeFn (option_get this "mergeFn") (option_get this "locals")
                     source with
  | Some locals' =>
      _mergeData tmpl this =
      (Ok VThis,
       if hasOwn (this_options this) "locals"
       then with_options this (set (this_options this) "locals" locals')
       else this)
  | None => _mergeData tmpl this = (Throw, this)
  end.
Proof.
  unfold _mergeData. run_M. simpl.
  destruct (call_mergeFn _ _ _); reflexivity.
Qed.


Lemma _mergeData_locals (tmpl : value) (this this' : Layouts) (v : value) :
  option_get this "mergeFn" = merge_fn ->
  _mergeData tmpl this = (Ok v, this') ->
  option_get this' "locals" =
  merge (option_get this "locals")
        [omit (merge (merge (VObj []) [get tmpl "locals"]) [get tmpl "data"])
              (option_get this "omitKeys")].
Proof.
  intros Hfn H. pose proof (_mergeData_cases tmpl this) as Hc. simpl in Hc.
  rewrite Hfn in Hc. simpl in Hc. rewrite Hc in H. injection H as _ <-.
  destruct (hasOwn (this_options this) "locals") eqn:Hown.
  - unfold option_get.
    destruct (this_options this) as [ | | | | | |fs| | | ] eqn:Hopts;
      try discriminate.
    cbn [with_options this_options]. now rewrite get_set_same.
  - unfold option_get in *. destruct (this_options this); simpl in *; auto.
    destruct (lookup "locals" fields); [discriminate|reflexivity].
Qed.







Lemma stack_unfold (fuel : nat) (name options : value) (this : Layouts) :
  stack fuel name options this =
  match createStack fuel this name options with
  | Some names => stack_fold names options this
  | None => (Diverge, this)
  end.
Proof.
  unfold stack. run_M.
  now destruct (createStack fuel this name options).
Qed.

Lemma stack_fold_unfold (names : list value) (options : value) (this : Layouts) :
  let this1 := with_options this (merge (this_options this) [options]) in
  stack_fold names options this =
  match makeRegex this1 (this_options this1) with
  | Some rx =>
      reduce (js_or (VStr (makeTag this1 (this_options this1))) VUndefined)
             names empty_acc (with_regex this1 rx)
  | None => (Throw, this1)
  end.
Proof.
  unfold stack_fold. run_M. simpl.
  now destruct (makeRegex _ _).
Qed.

(** The fold itself always ends: only the loop of [createStack] can go
    on for ever. *)
Lemma _mergeData_ends (tmpl : value) (this : Layouts) :
  fst (_mergeData tmpl this) <> Diverge.
Proof.
  pose proof (_mergeData_cases tmpl this) as Hc. simpl in Hc.
  destruct (call_mergeFn _ _ _); rewrite Hc; discriminate.
Qed.

Lemma stack_step_ends (tag : value) (acc : folded) (name : value)
    (this : Layouts) :
  fst (stack_step tag acc name this) <> Diverge.
Proof.
  unfold stack_step. run_M. simpl.
  pose proof (_mergeData_ends (cached this name) this) as Hm.
  destruct (_mergeData (cached this name) this) as [[d| |] this1];
    simpl in *; try discriminate; try congruence.
  destruct (js_or (acc_content acc) tag); try discriminate.
  destruct (this_regex this1); try discriminate.
  destruct (renderLayout _ _ _ _); discriminate.
Qed.

Lemma reduce_ends (tag : value) (names : list value) :
  forall (acc : folded) (this : Layouts),
    fst (reduce tag names acc this) <> Diverge.
Proof.
  induction names as [|name names IH]; intros acc this; simpl.
  - discriminate.
  - unfold bind.
    pose proof (stack_step_ends tag acc name this) as Hs.
    destruct (stack_step tag acc name this) as [[acc'| |] this1];
      simpl in *; [apply IH|discriminate|congruence].
Qed.

Lemma stack_fold_ends (names : list value) (options : value) (this : Layouts) :
  fst (stack_fold names options this) <> Diverge.
Proof.
  rewrite stack_fold_unfold.
  destruct (makeRegex _ _); [apply reduce_ends|discriminate].
Qed.

(** After a fold over a stack that is not empty, the [data] field of the
    accumulator is what [_mergeData] returned: the instance. *)
Lemma reduce_data (tag : value) (names : list value) :
  forall (acc r : folded) (this this' : Layouts),
    reduce tag names acc this = (Ok r, this') ->
    acc_data r = match names with [] => acc_data acc | _ :: _ => VThis end.
Proof.
  induction names as [|name names IH]; intros acc r this this'; simpl.
  - now intros [= <- _].
  - unfold bind.
    destruct (stack_step tag acc name this) as [[acc'| |] this1] eqn:Hs;
      try discriminate.
    intros Hr. apply IH in Hr. rewrite Hr.
    destruct names; auto.
    revert Hs. unfold stack_step. run_M. simpl.
    pose proof (_mergeData_cases (cached this name) this) as Hc. simpl in Hc.
    destruct (call_mergeFn _ _ _); rewrite Hc; try discriminate.
    destruct (js_or (acc_content acc) tag); try discriminate.
    match goal with
    | |- context [this_regex ?t] => destruct (this_regex t)
    end; try discriminate.
    destruct (renderLayout _ _ _ _); try discriminate.
    now intros [= <- _].
Qed.

End Folder.

(* ================================================================== *)
(** ** What [stack] leaves on the instance *)
(* ================================================================== *)






(** C5 at the store of the data-merge scenario: the [data] field of the
    result of [stack('a')] is the instance itself, which has no property
    [title]; the title is in the instance's [locals] option. *)
Lemma stack_data_is_instance :
  let result := @stack plain 3 (VStr "a") VUndefined titled_store in
  fst result
  = Ok (mkFolded VThis (VStr "{%= body %}") (Some default_regex)
                 (VStr "{%= body %}"))
  /\ instance_keys (snd result) = ["options"; "cache"; "regex"]
  /\ this_cache (snd result) = this_cache titled_store
  /\ option_get (snd result) "locals" = VObj [("title", VStr "A")].
Proof. repeat split. Qed.

(* ================================================================== *)
(** ** [render] *)
(* ================================================================== *)

Section Render.

Context {E : Externals}.

Lemma render_unfold (fuel : nat) (content name options : value)
    (this : Layouts) :
  render fuel content name options this =
  match stack fuel name options this with
  | (Ok layout, this') =>
      if truthy (acc_content layout) then
        match acc_content layout, this_regex this' with
        | VStr folded_content, Some rx =>
            (Ok (mkRendered (acc_data layout)
                   (VStr (js_replace rx content folded_content))), this')
        | _, _ => (Throw, this')
        end
      else (Ok (mkRendered (acc_data layout) content), this')
  | (Throw, this') => (Throw, this')
  | (Diverge, this') => (Diverge, this')
  end.
Proof.
  unfold render. run_M.
  destruct (stack fuel name options this) as [[layout| |] this']; auto.
  destruct (truthy (acc_content layout)); auto.
  destruct (acc_content layout); auto.
  destruct (this_regex this'); auto.
Qed.

Lemma truthy_VStr (s : string) : s <> "" -> truthy (VStr s) = true.
Proof. intros H. simpl. apply String.eqb_neq in H. now rewrite H. Qed.

(** The stack of a name whose record refers to nothing. *)
Lemma createStack_single (fuel : nat) (this : Layouts) (n : string)
    (options : value) :
  n <> "" -> isFalsey (VStr n) = false ->
  truthy (cached this (VStr n)) = true ->
  truthy (layout_of (cached this (VStr n))) = false ->
  truthy (get (merge (VObj []) [this_options this; options]) "defaultLayout")
  = false ->
  1 < fuel ->
  createStack fuel this (VStr n) options = Some [VStr n].
Proof.
  intros Hn Hf Hc Hl Hd Hfuel. unfold createStack.
  rewrite assertLayout_name by auto.
  set (opts := merge _ _) in *.
  assert (Hnn : next_name this opts (VStr n) = VNull).
  { unfold next_name. apply assertLayout_nothing; auto. }
  assert (Hpn : pushable this (VStr n) VNull = true).
  { unfold pushable. rewrite truthy_VStr, Hc by auto. reflexivity. }
  destruct fuel as [|[|fuel]]; try lia.
  rewrite createStack_loop_step, Hpn, Hnn. reflexivity.
Qed.

(** The stack of a name whose record refers to a record that refers to
    nothing. *)
Lemma createStack_pair (fuel : nat) (this : Layouts) (a b : string)
    (options : value) :
  a <> "" -> b <> "" ->
  isFalsey (VStr a) = false -> isFalsey (VStr b) = false ->
  get (cached this (VStr a)) "layout" = VStr b ->
  truthy (cached this (VStr b)) = true ->
  truthy (layout_of (cached this (VStr b))) = false ->
  truthy (get (merge (VObj []) [this_options this; options]) "defaultLayout")
  = false ->
  2 < fuel ->
  createStack fuel this (VStr a) options = Some [VStr b; VStr a].
Proof.
  intros Ha Hb Hfa Hfb Hla Hcb Hlb Hd Hfuel. unfold createStack.
  rewrite assertLayout_name by auto.
  set (opts := merge _ _) in *.
  assert (Hca : truthy (cached this (VStr a)) = true).
  { destruct (cached this (VStr a)); simpl in Hla; try discriminate.
    reflexivity. }
  assert (Hab : (a =? b) = false).
  { apply String.eqb_neq. intros ->.
    unfold layout_of, js_or in Hlb. rewrite Hla in Hlb.
    rewrite truthy_VStr in Hlb by auto. rewrite truthy_VStr in Hlb by auto.
    discriminate. }
  assert (Hna : next_name this opts (VStr a) = VStr b).
  { unfold next_name, layout_of. rewrite Hla. unfold js_or.
    rewrite truthy_VStr by auto. apply assertLayout_name; auto. }
  assert (Hnb : next_name this opts (VStr b) = VNull).
  { unfold next_name. apply assertLayout_nothing; auto. }
  assert (Hpa : pushable this (VStr a) VNull = true).
  { unfold pushable. rewrite truthy_VStr, Hca by auto. reflexivity. }
  assert (Hpb : pushable this (VStr b) (VStr a) = true).
  { unfold pushable. rewrite truthy_VStr, Hcb by auto.
    cbn [strict_eq]. rewrite Hab. reflexivity. }
  destruct fuel as [|[|[|fuel]]]; try lia.
  rewrite createStack_loop_step, Hpa, Hna, createStack_loop_step, Hpb, Hnb.
  reflexivity.
Qed.




End Render.

(* ================================================================== *)
(** ** Termination *)
(* ================================================================== *)

(** C2, as the code has it: [createStack] ends whenever the store is a
    plain object, the names that the loop goes on with after a record (the
    layout field of the record or the layout named in its data or, where
    the record names neither, the default layout of the call) are strings
    that name that same record, nothing the store answers to, or a record
    of the store's own further down some ranking of the names (no chain
    of references leads from a name through another name back to it), and
    the starting name resolves to such a name or to none.  It then ends
    within as many iterations as the store has records, with a stack no
    longer than that; and [stack] and [render] end as well. *)
Theorem createStack_terminates {E : Externals} (rank : string -> nat)
    (this : Layouts) (name options : value) :
  isObject (this_cache this) = true ->
  descends rank this (merge (VObj []) [this_options this; options]) = true ->
  name_like (assertLayout name (option_get this "defaultLayout")) = true ->
  registered this (assertLayout name (option_get this "defaultLayout"))
  = true ->
  exists stk,
    List.length stk <= store_size this /\
    forall fuel, store_size this < fuel ->
      createStack fuel this name options = Some stk /\
      fst (stack fuel name options this) <> Diverge /\
      forall content, fst (render fuel content name options this) <> Diverge.
Proof.
  intros Hobj Hd Hname Hreg.
  destruct (@createStack_loop_descends E this _ rank (S (store_size this))
              Hobj Hd _ VNull [] Hname Hreg) as (r & Hr & Hlen).
  - constructor.
  - intros x [].
  - intros k _ _ k' [].
  - simpl. lia.
  - exists r. split; auto.
    intros fuel Hlt.
    assert (Hc : createStack fuel this name options = Some r).
    { unfold createStack. eapply createStack_loop_more; [|exact Hr]. lia. }
    assert (Hs : fst (stack fuel name options this) <> Diverge).
    { rewrite stack_unfold, Hc. apply stack_fold_ends. }
    repeat split; auto.
    intros content. rewrite render_unfold.
    destruct (stack fuel name options this) as [[layout| |] this'];
      simpl in *; try discriminate; try congruence.
    destruct (truthy (acc_content layout)); try discriminate.
    destruct (acc_content layout); try discriminate.
    destruct (this_regex this'); discriminate.
Qed.

Lemma createStack_terminates_witness :
  exists stk,
    List.length stk <= store_size default_store /\
    forall fuel, store_size default_store < fuel ->
      @createStack plain fuel default_store (VStr "n") VUndefined = Some stk /\
      fst (@stack plain fuel (VStr "n") VUndefined default_store) <> Diverge /\
      forall content,
        fst (@render plain fuel content (VStr "n") VUndefined default_store)
        <> Diverge.
Proof.
  apply (@createStack_terminates plain
           (fun k => if k =? "n" then 1 else 0)
           default_store (VStr "n") VUndefined); reflexivity.
Defined.

(** C2 fails as stated: on the store where [a] names [b] and [b] names
    [a], no number of iterations brings the loop to its end. *)
Lemma createStack_cycle_diverges :
  ~ exists fuel stk,
      @createStack plain fuel cyclic_store (VStr "a") VUndefined = Some stk.
Proof.
  intros (fuel & stk & H). revert H. unfold createStack.
  set (opts := merge (VObj []) [this_options cyclic_store; VUndefined]).
  change (@assertLayout plain (VStr "a")
            (option_get cyclic_store "defaultLayout")) with (VStr "a").
  assert (Hloop : forall fuel stk,
             @createStack_loop plain fuel cyclic_store opts
               (VStr "a") VNull stk = None
             /\ @createStack_loop plain fuel cyclic_store opts
                  (VStr "a") (VStr "b") stk = None
             /\ @createStack_loop plain fuel cyclic_store opts
                  (VStr "b") (VStr "a") stk = None).
  { clear. induction fuel as [|fuel IH]; intros stk; [repeat split|].
    rewrite !createStack_loop_step.
    change (pushable cyclic_store (VStr "a") VNull) with true.
    change (pushable cyclic_store (VStr "a") (VStr "b")) with true.
    change (pushable cyclic_store (VStr "b") (VStr "a")) with true.
    change (@next_name plain cyclic_store opts (VStr "a")) with (VStr "b").
    change (@next_name plain cyclic_store opts (VStr "b")) with (VStr "a").
    cbv iota. repeat split; apply IH. }
  intros H. destruct (Hloop fuel []) as (H1 & _). congruence.
Qed.

(* ================================================================== *)
(** ** The constructor and [option] *)
(* ================================================================== *)

Lemma option_set_obj (key : string) (v : value) (o : obj) (c : value)
    (r : option RegExp) :
  key <> "__proto__" ->
  option_set key v (mkLayouts (VObj o) c r)
  = mkLayouts (VObj (assign key v o)) c r.
Proof.
  intros Hk. apply String.eqb_neq in Hk.
  unfold option_set, option_, option_put, put. simpl. now rewrite Hk.
Qed.

Lemma get_assign (o : obj) (k k' : string) (v : value) :
  get (VObj (assign k' v o)) k = if k =? k' then v else get (VObj o) k.
Proof.
  simpl. destruct (k =? k') eqn:Hk.
  - apply String.eqb_eq in Hk. subst. now rewrite lookup_assign_same.
  - apply String.eqb_neq in Hk. now rewrite lookup_assign_other.
Qed.

(** X1: The constructor installs its five defaults over whatever the caller
    passed under these names, and keeps every other option: under any
    other name the instance answers what the options it was built from
    (the caller's or, without any, an empty object) answer. *)
Theorem constructor_sets_defaults (o : value) :
  isObject o = true \/ truthy o = false ->
  let this := new_Layouts o in
  option_get this "locals" = VObj []
  /\ option_get this "omitKeys"
     = VArr [VStr "mergeFn"; VStr "content"; VStr "delims"; VStr "layout"]
  /\ option_get this "mergeFn" = merge_fn
  /\ option_get this "layoutDelims" = VArr [VStr "{%="; VStr "%}"]
  /\ option_get this "defaultTag"
     = VObj [("delims", VArr [VStr "{%="; VStr "%}"]); ("tag", VStr "body")]
  /\ forall k,
       ~ In k ["locals"; "omitKeys"; "mergeFn"; "layoutDelims"; "defaultTag"] ->
       option_get this k = get (js_or o (VObj [])) k.
Proof.
  intros Ho this.
  assert (Hopts : exists fs, js_or o (VObj []) = VObj fs).
  { destruct Ho as [Ho|Ho].
    - destruct o; try discriminate. exists fields. reflexivity.
    - exists []. unfold js_or. now rewrite Ho. }
  destruct Hopts as (fs & Hfs).
  subst this. unfold new_Layouts, defaultOptions, option_get. rewrite Hfs.
  rewrite !option_set_obj by discriminate. cbn [this_options].
  rewrite !get_assign. cbn [String.eqb Ascii.eqb Bool.eqb].
  repeat split.
  intros k Hk. rewrite !get_assign.
  repeat match goal with
         | |- context [k =? ?s] =>
             destruct (String.eqb_spec k s);
             [subst; exfalso; apply Hk; simpl; tauto|]
         end.
  reflexivity.
Qed.

Lemma constructor_sets_defaults_witness :
  let this :=
    new_Layouts (VObj [("locals", VObj [("title", VStr "mine")]);
                       ("defaultLayout", VStr "d")]) in
  option_get this "locals" = VObj []
  /\ option_get this "defaultLayout" = VStr "d".
Proof.
  intros this.
  destruct (constructor_sets_defaults
              (VObj [("locals", VObj [("title", VStr "mine")]);
                     ("defaultLayout", VStr "d")]) (or_introl eq_refl))
    as (Hl & _ & _ & _ & _ & Hk).
  split; [exact Hl|].
  subst this. rewrite Hk; [reflexivity|].
  simpl. intros [H|[H|[H|[H|[H|[]]]]]]; discriminate.
Defined.

(** X2: On options that are a plain object and for every key but
    [__proto__] (which names no property of the object but the accessor
    of [Object.prototype]), [option(key, value)] returns the instance
    and [option(key)] afterwards gives [value] back; the other options are
    as before, and reading changes nothing. *)
Theorem option_set_then_get (key : string) (v : value) (this : Layouts) :
  isObject (this_options this) = true ->
  key <> "__proto__" ->
  let this' := snd (option_ [VStr key; v] this) in
  fst (option_ [VStr key; v] this) = Ok VThis
  /\ option_ [VStr key] this' = (Ok v, this')
  /\ forall k, k <> key -> option_get this' k = option_get this k.
Proof.
  intros Ho Hkey this'. subst this'.
  apply String.eqb_neq in Hkey.
  unfold option_, option_put, put. simpl.
  destruct (this_options this) as [ | | | | | |fs| | | ] eqn:Hopts;
    try discriminate.
  rewrite Hkey. simpl. split; [reflexivity|]. split.
  - unfold option_get. simpl. now rewrite lookup_assign_same.
  - intros k Hk. unfold option_get. simpl. rewrite Hopts. simpl.
    now rewrite lookup_assign_other.
Qed.

(** Under the key [__proto__] a value that is not an object is ignored,
    and the key answers with [Object.prototype] as before. *)
Example option_proto_number :
  option_ [VStr "__proto__"; VNum 5] chain_store = (Ok VThis, chain_store)
  /\ option_ [VStr "__proto__"] chain_store = (Ok VProto, chain_store).
Proof. split; reflexivity. Qed.

Lemma option_set_then_get_witness :
  let this' := snd (option_ [VStr "defaultLayout"; VStr "d"] chain_store) in
  option_ [VStr "defaultLayout"] this' = (Ok (VStr "d"), this')
  /\ option_get this' "mergeFn" = merge_fn.
Proof.
  intros this'.
  destruct (@option_set_then_get "defaultLayout" (VStr "d") chain_store
              eq_refl) as (_ & Hget & Hother); [discriminate|].
  split; [exact Hget|].
  subst this'. rewrite Hother; [reflexivity|discriminate].
Defined.

(* ================================================================== *)
(** ** More on the resolver *)
(* ================================================================== *)

Section ResolverEdges.

Context {E : Externals}.

Lemma assertLayout_default (v d : value) :
  truthy v = false -> strict_eq v (VBool false) = false ->
  assertLayout v d = js_or d VNull.
Proof.
  intros Hv Hf. unfold assertLayout. now rewrite Hv, Hf.
Qed.

Lemma truthy_not_null (v : value) :
  truthy v = true -> strict_eq VNull v = false.
Proof. destruct v; simpl; auto; discriminate. Qed.

(** What the loop pushes satisfies the loop test. *)
Lemma createStack_loop_all (P : value -> Prop) (this : Layouts) (opts : value) :
  (forall name prev, pushable this name prev = true -> P name) ->
  forall fuel name prev r,
    createStack_loop fuel this opts name prev [] = Some r -> Forall P r.
Proof.
  intros HP. induction fuel as [|fuel IH]; intros name prev r; [discriminate|].
  rewrite createStack_loop_step.
  destruct (pushable this name prev) eqn:Hp; [|intros [= <-]; constructor].
  rewrite createStack_loop_stack.
  destruct (createStack_loop fuel this opts _ name []) as [r0|] eqn:Hr0;
    simpl; [|discriminate].
  intros [= <-]. apply Forall_app. split; [eauto|].
  constructor; [eauto|constructor].
Qed.

(** Two iterations and a stop. *)
Lemma createStack_loop_two (fuel : nat) (this : Layouts) (opts a b : value) :
  pushable this a VNull = true ->
  next_name this opts a = b ->
  pushable this b a = true ->
  pushable this (next_name this opts b) b = false ->
  2 < fuel ->
  createStack_loop fuel this opts a VNull [] = Some [b; a].
Proof.
  intros Hpa Hna Hpb Hstop Hfuel.
  destruct fuel as [|[|[|fuel]]]; try lia.
  rewrite createStack_loop_step, Hpa, Hna, createStack_loop_step, Hpb,
    createStack_loop_step, Hstop.
  reflexivity.
Qed.

(** One iteration and a stop. *)
Lemma createStack_loop_one (fuel : nat) (this : Layouts) (opts a : value) :
  pushable this a VNull = true ->
  pushable this (next_name this opts a) a = false ->
  1 < fuel ->
  createStack_loop fuel this opts a VNull [] = Some [a].
Proof.
  intros Hpa Hstop Hfuel.
  destruct fuel as [|[|fuel]]; try lia.
  rewrite createStack_loop_step, Hpa, createStack_loop_step, Hstop.
  reflexivity.
Qed.

Lemma pushable_name (this : Layouts) (s : string) (prev : value) :
  s <> "" -> truthy (cached this (VStr s)) = true ->
  strict_eq prev (VStr s) = false ->
  pushable this (VStr s) prev = true.
Proof.
  intros Hs Hc Hp. unfold pushable. now rewrite truthy_VStr, Hc, Hp.
Qed.

Lemma pushable_same (this : Layouts) (s : string) :
  pushable this (VStr s) (VStr s) = false.
Proof.
  unfold pushable. simpl. rewrite String.eqb_refl. simpl.
  now rewrite andb_false_r.
Qed.

End ResolverEdges.

(** X3: Whatever [assertLayout] returns is [null] or truthy, and then it is
    the value it was given or the default layout: the loop test [name &&
    ...] of [createStack] fails on [null] only. *)
Theorem assertLayout_null_or_truthy {E : Externals} (v d : value) :
  assertLayout v d = VNull
  \/ (truthy (assertLayout v d) = true
      /\ (assertLayout v d = v \/ assertLayout v d = d)).
Proof.
  unfold assertLayout, js_or.
  destruct (strict_eq v (VBool false)); simpl; auto.
  destruct (truthy v) eqn:Hv; simpl.
  - destruct (isFalsey v); simpl; auto.
    destruct (strict_eq v (VBool true)); auto.
    destruct (truthy d) eqn:Hd; auto.
  - destruct (truthy d) eqn:Hd; auto.
Qed.

Lemma createStack_unresolved {E : Externals} (fuel : nat) (this : Layouts)
    (name options : value) :
  truthy (assertLayout name (option_get this "defaultLayout")) = false ->
  createStack (S fuel) this name options = Some [].
Proof.
  intros H. unfold createStack. rewrite createStack_loop_step.
  unfold pushable. now rewrite H.
Qed.

(** X4: On a store that is a plain object, [createStack] returns the empty
    stack exactly when the starting name resolves to nothing or to a name
    under which the store answers nothing truthy: no record of its own
    and no property that it inherits from [Object.prototype]. *)
Theorem createStack_empty_iff {E : Externals} (fuel : nat) (this : Layouts)
    (name options : value) :
  isObject (this_cache this) = true ->
  let start := assertLayout name (option_get this "defaultLayout") in
  createStack (S fuel) this name options = Some []
  <-> truthy start = false \/ truthy (cached this start) = false.
Proof.
  intros _ start. unfold createStack. fold start.
  rewrite createStack_loop_step. split.
  - destruct (pushable this start VNull) eqn:Hp.
    + rewrite createStack_loop_stack.
      destruct (createStack_loop fuel this _ _ start []) as [r|];
        simpl; [|discriminate].
      intros [= H]. destruct r; discriminate.
    + intros _. unfold pushable in Hp.
      destruct (truthy start) eqn:Ht; auto.
      rewrite (truthy_not_null _ Ht) in Hp. simpl in Hp. auto.
  - intros H. unfold pushable.
    destruct H as [-> | ->]; [reflexivity|].
    now rewrite andb_false_r.
Qed.

Lemma createStack_empty_iff_witness :
  @createStack plain 2 chain_store (VStr "missing") VUndefined = Some []
  /\ @createStack plain 2 chain_store (VStr "toString") VUndefined <> Some [].
Proof.
  split.
  - apply (@createStack_empty_iff plain 1 chain_store (VStr "missing")
             VUndefined eq_refl).
    right. reflexivity.
  - intros H.
    apply (@createStack_empty_iff plain 1 chain_store (VStr "toString")
             VUndefined eq_refl) in H.
    destruct H as [H|H]; discriminate.
Defined.

(** X5: On a store that is a plain object, every name on a returned stack
    is truthy and the store answers something truthy under it, a record
    of its own or a property that it inherits from [Object.prototype]:
    the fold of [stack] never reads [content] off [undefined]. *)
Theorem createStack_names_have_records {E : Externals} (fuel : nat)
    (this : Layouts) (name options : value) (stk : list value) :
  isObject (this_cache this) = true ->
  createStack fuel this name options = Some stk ->
  Forall (fun v => truthy v = true /\ truthy (cached this v) = true) stk.
Proof.
  intros _. unfold createStack. apply createStack_loop_all.
  intros n prev Hp. unfold pushable in Hp.
  apply andb_prop in Hp. destruct Hp as [Hp Hc].
  apply andb_prop in Hp. tauto.
Qed.

Lemma createStack_names_have_records_witness :
  Forall (fun v => truthy v = true /\ truthy (cached chain_store v) = true)
         [VStr "b"; VStr "a"].
Proof.
  apply (@createStack_names_have_records plain 3 chain_store (VStr "a")
           VUndefined _ eq_refl).
  reflexivity.
Defined.

(** X6: A starting name that is falsy or [true] takes the default layout of
    the instance only: when the instance has none, the stack is empty
    even if the per-call options give a [defaultLayout]. *)
Theorem createStack_start_ignores_call_default {E : Externals} (fuel : nat)
    (this : Layouts) (name options : value) :
  truthy name = false \/ name = VBool true ->
  truthy (option_get this "defaultLayout") = false ->
  createStack (S fuel) this name options = Some [].
Proof.
  intros Hname Hd. apply createStack_unresolved.
  unfold assertLayout, js_or. rewrite Hd.
  destruct Hname as [Hn| ->].
  - rewrite Hn. simpl. now destruct (strict_eq name (VBool false)).
  - simpl. now destruct (isFalsey (VBool true)).
Qed.

Lemma createStack_start_ignores_call_default_witness :
  @createStack plain 5 chain_store VUndefined
    (VObj [("defaultLayout", VStr "b")]) = Some []
  /\ @createStack plain 5 chain_store (VBool true)
       (VObj [("defaultLayout", VStr "b")]) = Some [].
Proof.
  split.
  - apply (@createStack_start_ignores_call_default plain 4 chain_store
             VUndefined); [left|]; reflexivity.
  - apply (@createStack_start_ignores_call_default plain 4 chain_store
             (VBool true)); [right|]; reflexivity.
Defined.

(** X7: With a default layout [d] that has a record, a record [n] without a
    layout reference is wrapped in [d]: the stack is [[d, n]].  The
    default layout resolves to itself in turn, and the test [prev !==
    name] ends the loop there. *)
Theorem createStack_default_layout {E : Externals} (fuel : nat)
    (this : Layouts) (n d : string) (options : value) :
  n <> "" -> d <> "" -> n <> d ->
  isFalsey (VStr n) = false ->
  truthy (cached this (VStr n)) = true ->
  truthy (cached this (VStr d)) = true ->
  truthy (layout_of (cached this (VStr n))) = false ->
  strict_eq (layout_of (cached this (VStr n))) (VBool false) = false ->
  truthy (layout_of (cached this (VStr d))) = false ->
  strict_eq (layout_of (cached this (VStr d))) (VBool false) = false ->
  get (merge (VObj []) [this_options this; options]) "defaultLayout" = VStr d ->
  2 < fuel ->
  createStack fuel this (VStr n) options = Some [VStr d; VStr n].
Proof.
  intros Hn Hd Hnd Hfn Hcn Hcd Hln Hfn' Hld Hfd Hdef Hfuel.
  unfold createStack. rewrite assertLayout_name by auto.
  assert (Hjs : js_or (VStr d) VNull = VStr d)
    by (unfold js_or; now rewrite truthy_VStr).
  apply createStack_loop_two; auto.
  - apply pushable_name; auto.
  - unfold next_name. rewrite Hdef, assertLayout_default by auto. exact Hjs.
  - apply pushable_name; auto. simpl. now apply String.eqb_neq.
  - unfold next_name. rewrite Hdef, assertLayout_default by auto.
    rewrite Hjs. apply pushable_same.
Qed.

Lemma createStack_default_layout_witness :
  @createStack plain 3 default_store (VStr "n") VUndefined
  = Some [VStr "d"; VStr "n"]
  /\ @createStack plain 3 default_store (VStr "d") VUndefined
     = Some [VStr "d"].
Proof.
  split; [|reflexivity].
  apply (@createStack_default_layout plain 3 default_store "n" "d" VUndefined);
    try reflexivity; try discriminate; lia.
Defined.

(** X8: A record that says [layout: false] and has no data does not opt out
    of the default layout: [template.layout || (template.data && ...)]
    turns the [false] into [undefined], for which [assertLayout] gives
    the default layout, and the stack of the record is [[d, n]]. *)
Theorem layout_false_takes_default {E : Externals} (fuel : nat)
    (this : Layouts) (n d : string) (options : value) :
  n <> "" -> d <> "" -> n <> d ->
  isFalsey (VStr n) = false ->
  get (cached this (VStr n)) "layout" = VBool false ->
  get (cached this (VStr n)) "data" = VUndefined ->
  truthy (cached this (VStr d)) = true ->
  get (cached this (VStr d)) "layout" = VUndefined ->
  get (cached this (VStr d)) "data" = VUndefined ->
  get (merge (VObj []) [this_options this; options]) "defaultLayout" = VStr d ->
  2 < fuel ->
  createStack fuel this (VStr n) options = Some [VStr d; VStr n].
Proof.
  intros Hn Hd Hnd Hfn Hln Hdn Hcd Hld Hdd Hdef Hfuel.
  assert (Hcn : truthy (cached this (VStr n)) = true).
  { destruct (cached this (VStr n)); try reflexivity;
      compute in Hln; discriminate. }
  assert (Hnext : forall s,
             get (cached this (VStr s)) "layout" = VUndefined
             \/ get (cached this (VStr s)) "layout" = VBool false ->
             get (cached this (VStr s)) "data" = VUndefined ->
             next_name this (merge (VObj []) [this_options this; options])
                       (VStr s) = VStr d).
  { intros s Hl Hdata. unfold next_name, layout_of. rewrite Hdef, Hdata.
    destruct Hl as [-> | ->];
      rewrite assertLayout_default by reflexivity;
      unfold js_or; now rewrite truthy_VStr. }
  unfold createStack. rewrite assertLayout_name by auto.
  apply createStack_loop_two; auto.
  - apply pushable_name; auto.
  - apply pushable_name; auto. simpl. now apply String.eqb_neq.
  - rewrite Hnext by auto. apply pushable_same.
Qed.

Lemma layout_false_takes_default_witness :
  @createStack plain 3 default_store (VStr "n") VUndefined
  = Some [VStr "d"; VStr "n"].
Proof.
  apply (@layout_false_takes_default plain 3 default_store "n" "d"
           VUndefined);
    try reflexivity; try discriminate; lia.
Defined.

(** X9: A record whose layout is its own name is on the stack once: the test
    [prev !== name] catches the immediate repetition. *)
Theorem createStack_self_reference {E : Externals} (fuel : nat)
    (this : Layouts) (n : string) (options : value) :
  n <> "" -> isFalsey (VStr n) = false ->
  layout_of (cached this (VStr n)) = VStr n ->
  1 < fuel ->
  createStack fuel this (VStr n) options = Some [VStr n].
Proof.
  intros Hn Hf Hl Hfuel.
  assert (Hc : truthy (cached this (VStr n)) = true).
  { destruct (cached this (VStr n)); try reflexivity;
      compute in Hl; discriminate. }
  unfold createStack. rewrite assertLayout_name by auto.
  apply createStack_loop_one; auto.
  - apply pushable_name; auto.
  - unfold next_name. rewrite Hl, assertLayout_name by auto.
    apply pushable_same.
Qed.

Lemma createStack_self_reference_witness :
  @createStack plain 2 data_store (VStr "s") VUndefined = Some [VStr "s"].
Proof.
  apply (@createStack_self_reference plain 2 data_store "s" VUndefined);
    try reflexivity; try discriminate; lia.
Defined.

(** X10: When the [layout] field of a record is falsy, even [false], the
    layout named in its data is used: the stack of [a] is [[b, a]] when
    the data of [a] names [b] and [b] refers to nothing. *)
Theorem createStack_data_layout {E : Externals} (fuel : nat)
    (this : Layouts) (a b : string) (options : value) :
  a <> "" -> b <> "" ->
  isFalsey (VStr a) = false -> isFalsey (VStr b) = false ->
  truthy (get (cached this (VStr a)) "layout") = false ->
  get (get (cached this (VStr a)) "data") "layout" = VStr b ->
  truthy (cached this (VStr b)) = true ->
  truthy (layout_of (cached this (VStr b))) = false ->
  truthy (get (merge (VObj []) [this_options this; options]) "defaultLayout")
  = false ->
  2 < fuel ->
  createStack fuel this (VStr a) options = Some [VStr b; VStr a].
Proof.
  intros Ha Hb Hfa Hfb Hla Hda Hcb Hlb Hdef Hfuel.
  assert (Hdata : truthy (get (cached this (VStr a)) "data") = true).
  { destruct (get (cached this (VStr a)) "data"); try reflexivity;
      compute in Hda; discriminate. }
  assert (Hca : truthy (cached this (VStr a)) = true).
  { destruct (cached this (VStr a)); try reflexivity;
      compute in Hdata; discriminate. }
  assert (Hlo : layout_of (cached this (VStr a)) = VStr b).
  { unfold layout_of, js_or, js_and. now rewrite Hla, Hdata. }
  assert (Hab : a <> b).
  { intros ->. rewrite Hlo in Hlb. rewrite truthy_VStr in Hlb by auto.
    discriminate. }
  unfold createStack. rewrite assertLayout_name by auto.
  apply createStack_loop_two; auto.
  - apply pushable_name; auto.
  - unfold next_name. rewrite Hlo. now apply assertLayout_name.
  - apply pushable_name; auto. simpl. now apply String.eqb_neq.
  - unfold next_name. rewrite assertLayout_nothing by auto. reflexivity.
Qed.

Lemma createStack_data_layout_witness :
  @createStack plain 3 data_store (VStr "a") VUndefined
  = Some [VStr "b"; VStr "a"].
Proof.
  apply (@createStack_data_layout plain 3 data_store "a" "b" VUndefined);
    try reflexivity; try discriminate; lia.
Defined.

(** What a plain object answers under the name of a property of
    [Object.prototype] that it has no property of its own for. *)
Lemma get_inherited (o : obj) (k : string) :
  hasOwn (VObj o) k = false ->
  k = "__proto__" \/ In k (map fst Object_prototype) ->
  get (VObj o) k = VProto \/ exists name, get (VObj o) k = native name.
Proof.
  simpl. destruct (lookup k o); [discriminate|]. intros _ Hk.
  unfold inherited. destruct (k =? "__proto__") eqn:Hp; [now left|].
  right. destruct Hk as [->|Hk]; [discriminate|].
  unfold method_of_Object.
  simpl in Hk.
  repeat (destruct Hk as [<-|Hk]; [eexists; reflexivity|]).
  contradiction.
Qed.

(** X26: On a store that is a plain object and has no record of its own
    under the name of a property of [Object.prototype] ([toString],
    [constructor], [__proto__] and the like), [createStack] takes what
    the store inherits under that name for a record: with no default
    layout, the stack of such a name is that name. *)
Theorem createStack_inherited_name {E : Externals} (fuel : nat)
    (this : Layouts) (k : string) (options : value) :
  isObject (this_cache this) = true ->
  hasOwn (this_cache this) k = false ->
  k = "__proto__" \/ In k (map fst Object_prototype) ->
  isFalsey (VStr k) = false ->
  truthy (get (merge (VObj []) [this_options this; options]) "defaultLayout")
  = false ->
  1 < fuel ->
  createStack fuel this (VStr k) options = Some [VStr k].
Proof.
  intros Hobj Hown Hk Hf Hd Hfuel.
  assert (Hne : k <> "").
  { intros ->. simpl in Hk. intuition discriminate. }
  assert (Hc : cached this (VStr k) = VProto
               \/ exists name, cached this (VStr k) = native name).
  { unfold cached. simpl to_str.
    destruct (this_cache this) as [ | | | | | |c| | | ]; try discriminate.
    now apply get_inherited. }
  apply createStack_single; auto.
  - destruct Hc as [->|[name ->]]; reflexivity.
  - destruct Hc as [->|[name ->]]; reflexivity.
Qed.

Lemma createStack_inherited_name_witness :
  @createStack plain 2 chain_store (VStr "constructor") VUndefined
  = Some [VStr "constructor"].
Proof.
  apply (@createStack_inherited_name plain 2 chain_store "constructor"
           VUndefined);
    try reflexivity; try lia.
  right. simpl. tauto.
Defined.

(** X11: With an empty stack [render] returns the content it was given, with
    no data; the per-call options are merged and the pattern is compiled
    all the same. *)
Theorem render_empty_stack {E : Externals} (fuel : nat) (this : Layouts)
    (content name options : value) (rx : RegExp) :
  createStack fuel this name options = Some [] ->
  let this1 := with_options this (merge (this_options this) [options]) in
  makeRegex this1 (this_options this1) = Some rx ->
  render fuel content name options this
  = (Ok (mkRendered VUndefined content), with_regex this1 rx).
Proof.
  intros Hc this1 Hrx.
  rewrite render_unfold, stack_unfold, Hc, stack_fold_unfold.
  fold this1. rewrite Hrx. reflexivity.
Qed.

Lemma render_empty_stack_witness :
  fst (@render plain 1 (VStr "<p>page</p>") (VStr "missing") VUndefined
         chain_store)
  = Ok (mkRendered VUndefined (VStr "<p>page</p>")).
Proof.
  rewrite (@render_empty_stack plain 1 chain_store (VStr "<p>page</p>")
             (VStr "missing") VUndefined default_regex eq_refl eq_refl).
  reflexivity.
Defined.

(* ================================================================== *)
(** ** The pattern of the body tag *)
(* ================================================================== *)

Lemma list_ascii_of_string_app (a b : string) :
  list_ascii_of_string (a ++ b)%string
  = (list_ascii_of_string a ++ list_ascii_of_string b)%list.
Proof. induction a as [|c a IH]; simpl; [reflexivity|now rewrite IH]. Qed.

Lemma string_app_nil_r (s : string) : (s ++ "")%string = s.
Proof. induction s as [|c s IH]; simpl; [reflexivity|now rewrite IH]. Qed.

Lemma string_length_app (a b : string) :
  String.length (a ++ b)%string = String.length a + String.length b.
Proof. induction a as [|c a IH]; simpl; [reflexivity|now rewrite IH]. Qed.

Lemma lits_app (a b : string) :
  lits (a ++ b)%string = (lits a ++ lits b)%list.
Proof. unfold lits. now rewrite list_ascii_of_string_app, map_app. Qed.

Lemma escape_tag_app (a b : string) :
  escape_tag (a ++ b)%string = (escape_tag a ++ escape_tag b)%string.
Proof.
  induction a as [|c a IH]; simpl; [reflexivity|].
  destruct (in_string c "]()[{|}"); simpl; now rewrite IH.
Qed.

(** A character that [escape_tag] escapes has a meaning in a pattern and
    is not the [s] of the white-space class. *)
Lemma escaped_char (c : ascii) :
  in_string c "]()[{|}" = true ->
  Ascii.eqb c "s" = false /\ in_string c syntax_chars = true.
Proof.
  unfold in_string. simpl. intros H.
  repeat (apply orb_prop in H; destruct H as [H|H]);
    try (apply Ascii.eqb_eq in H; subst; split; reflexivity).
  discriminate.
Qed.

Lemma unescaped_char (c : ascii) :
  in_string c syntax_chars = false ->
  Ascii.eqb c "*" = false /\ Ascii.eqb c "\" = false.
Proof.
  unfold in_string. simpl. intros H.
  repeat (apply orb_false_elim in H; destruct H as [? H]).
  split; assumption.
Qed.

Lemma plain_char_not_star (c : ascii) :
  plain_char c = true -> Ascii.eqb c "*" = false.
Proof.
  unfold plain_char. intros H.
  destruct (Ascii.eqb c "*") eqn:Hc; [|reflexivity].
  apply Ascii.eqb_eq in Hc. subst. discriminate.
Qed.

Lemma parse_items_pending (src : list ascii) (a : atom) :
  no_lead_star src ->
  parse_items src (Some a)
  = option_map (cons (One a)) (parse_items src None).
Proof.
  destruct src as [|c src]; simpl; [reflexivity|].
  intros ->. destruct (Ascii.eqb c "\").
  - destruct src as [|e src]; [reflexivity|].
    destruct (Ascii.eqb e "s"); [reflexivity|].
    destruct (in_string e syntax_chars); reflexivity.
  - destruct (in_string c syntax_chars); reflexivity.
Qed.

Lemma no_lead_star_escape (s : string) (rest : list ascii) :
  plain_text s = true -> no_lead_star rest ->
  no_lead_star (list_ascii_of_string (escape_tag s) ++ rest).
Proof.
  destruct s as [|c s]; simpl; auto.
  intros Hp _. apply andb_prop in Hp. destruct Hp as [Hc _].
  destruct (in_string c "]()[{|}"); simpl; [reflexivity|].
  now apply plain_char_not_star.
Qed.

(** The source [escape_tag] makes of a plain text compiles to the
    pattern of that text. *)
Lemma parse_items_plain (s : string) :
  forall rest,
    plain_text s = true -> no_lead_star rest ->
    parse_items (list_ascii_of_string (escape_tag s) ++ rest) None
    = option_map (app (lits s)) (parse_items rest None).
Proof.
  induction s as [|c s IH]; intros rest Hp Hrest.
  - simpl. now destruct (parse_items rest None).
  - simpl in Hp. apply andb_prop in Hp. destruct Hp as [Hc Hs].
    assert (Hnext : no_lead_star
                      (list_ascii_of_string (escape_tag s) ++ rest))
      by now apply no_lead_star_escape.
    assert (Hgoal : parse_items
                      (list_ascii_of_string (escape_tag s) ++ rest)
                      (Some (Chr c))
                    = option_map (app (lits (String c s)))
                        (parse_items rest None)).
    { rewrite parse_items_pending, IH by auto.
      now destruct (parse_items rest None). }
    simpl escape_tag.
    destruct (in_string c "]()[{|}") eqn:Hesc.
    + destruct (escaped_char _ Hesc) as [Hns Hsyn].
      cbn [list_ascii_of_string app parse_items].
      change (Ascii.eqb "\" "*") with false.
      change (Ascii.eqb "\" "\") with true. cbv iota.
      rewrite Hns, Hsyn. exact Hgoal.
    + unfold plain_char in Hc. rewrite Hesc, orb_false_r in Hc.
      apply negb_true_iff in Hc.
      destruct (unescaped_char _ Hc) as [Hstar Hback].
      cbn [list_ascii_of_string app parse_items].
      rewrite Hstar, Hback, Hc. exact Hgoal.
Qed.

(** The pattern source of a delimiter pair and a tag name. *)
Lemma parse_items_tag (d0 t d1 : string) :
  plain_text d0 = true -> plain_text t = true -> plain_text d1 = true ->
  parse_items
    (list_ascii_of_string
       (escape_tag (d0 ++ "\s*" ++ t ++ "\s*" ++ d1)%string))
    None
  = Some (lits d0 ++ Star Space :: lits t ++ Star Space :: lits d1)%list.
Proof.
  intros H0 Ht H1.
  assert (Hsep : forall x, escape_tag ("\s*" ++ x)%string
                           = ("\s*" ++ escape_tag x)%string)
    by reflexivity.
  rewrite escape_tag_app, Hsep, escape_tag_app, Hsep.
  rewrite list_ascii_of_string_app.
  rewrite parse_items_plain by (auto; reflexivity).
  cbn [append list_ascii_of_string parse_items].
  change (Ascii.eqb "\" "*") with false.
  change (Ascii.eqb "\" "\") with true.
  change (Ascii.eqb "s" "s") with true.
  change (Ascii.eqb "*" "*") with true. cbv iota.
  rewrite list_ascii_of_string_app.
  rewrite parse_items_plain by (auto; reflexivity).
  cbn [append list_ascii_of_string parse_items].
  change (Ascii.eqb "\" "*") with false.
  change (Ascii.eqb "\" "\") with true.
  change (Ascii.eqb "s" "s") with true.
  change (Ascii.eqb "*" "*") with true. cbv iota.
  rewrite <- (app_nil_r (list_ascii_of_string (escape_tag d1))).
  rewrite parse_items_plain by (auto; exact I).
  simpl. now rewrite app_nil_r.
Qed.

Lemma match_here_lits (s : string) :
  forall (p : list item) (rest : string),
    match_here (lits s ++ p) (s ++ rest)%string
    = option_map (Nat.add (String.length s)) (match_here p rest).
Proof.
  induction s as [|c s IH]; intros p rest.
  - simpl. now destruct (match_here p rest).
  - change (lits (String c s)) with (One (Chr c) :: lits s).
    simpl. rewrite Ascii.eqb_refl, IH.
    now destruct (match_here p rest).
Qed.

Lemma match_here_star_space (p : list item) (w : string) :
  forall (rest : string) (n : nat),
    all_space w = true -> no_lead_space rest = true ->
    match_here p rest = Some n ->
    match_here (Star Space :: p) (w ++ rest)%string
    = Some (String.length w + n).
Proof.
  induction w as [|c w IH]; intros rest n Hw Hrest Hp.
  - simpl. destruct rest as [|c rest]; [exact Hp|].
    simpl in Hrest. apply negb_true_iff in Hrest.
    simpl. now rewrite Hrest.
  - simpl in Hw. apply andb_prop in Hw. destruct Hw as [Hc Hw].
    specialize (IH rest n Hw Hrest Hp). simpl in IH.
    simpl. rewrite Hc, IH. reflexivity.
Qed.

Lemma no_lead_space_app (a b : string) :
  a <> "" -> no_lead_space a = true -> no_lead_space (a ++ b)%string = true.
Proof. destruct a; simpl; [contradiction|auto]. Qed.

(** The pattern of a delimiter pair and a tag name matches the whole of
    the tag written with any white space around the name. *)
Lemma match_here_tag (d0 t d1 w1 w2 : string) :
  t <> "" -> no_lead_space t = true -> no_lead_space d1 = true ->
  all_space w1 = true -> all_space w2 = true ->
  match_here (lits d0 ++ Star Space :: lits t ++ Star Space :: lits d1)
             (d0 ++ w1 ++ t ++ w2 ++ d1)%string
  = Some (String.length (d0 ++ w1 ++ t ++ w2 ++ d1)%string).
Proof.
  intros Ht Hlt Hld1 Hw1 Hw2.
  assert (H1 : match_here (lits d1) d1 = Some (String.length d1)).
  { rewrite <- (app_nil_r (lits d1)).
    rewrite <- (string_app_nil_r d1) at 2.
    rewrite match_here_lits. simpl. f_equal. lia. }
  assert (H2 : match_here (Star Space :: lits d1) (w2 ++ d1)%string
               = Some (String.length w2 + String.length d1))
    by (apply match_here_star_space; auto).
  assert (H3 : match_here (lits t ++ Star Space :: lits d1)
                          (t ++ w2 ++ d1)%string
               = Some (String.length t
                       + (String.length w2 + String.length d1)))
    by (rewrite match_here_lits, H2; reflexivity).
  assert (H4 : match_here (Star Space :: lits t ++ Star Space :: lits d1)
                          (w1 ++ t ++ w2 ++ d1)%string
               = Some (String.length w1
                       + (String.length t
                          + (String.length w2 + String.length d1)))).
  { apply match_here_star_space; auto. now apply no_lead_space_app. }
  rewrite match_here_lits, H4. simpl.
  now rewrite !string_length_app.
Qed.

Lemma match_here_tag_empty (d0 t : string) (q : list item) :
  t <> "" ->
  match_here (lits d0 ++ Star Space :: lits t ++ q) "" = None.
Proof.
  intros Ht. destruct d0 as [|c d0]; [|reflexivity].
  destruct t as [|c t]; [contradiction|reflexivity].
Qed.

Lemma substring_all (s : string) : substring 0 (String.length s) s = s.
Proof. induction s as [|c s IH]; simpl; [reflexivity|now rewrite IH]. Qed.

Lemma substring_none (s : string) :
  forall n, substring n 0 s = "".
Proof.
  induction s as [|c s IH]; intros [|n]; simpl; auto.
Qed.

Lemma expand_no_dollar (repl matched before after : string) :
  no_dollar repl = true -> expand repl matched before after = repl.
Proof.
  unfold no_dollar, in_string. rewrite negb_true_iff.
  induction repl as [|d repl IH]; intros H; [reflexivity|].
  cbn [list_ascii_of_string existsb] in H.
  apply orb_false_elim in H. destruct H as [Hd Hrest].
  rewrite Ascii.eqb_sym in Hd.
  cbn [expand]. rewrite Hd. f_equal. now apply IH.
Qed.

(** Past the end of a match that reaches the end of the text. *)
Lemma replace_from_skip_all (p : list item) (global : bool) (repl : string) :
  forall (s before : string),
    match_here p "" = None ->
    replace_from p global repl before s (String.length s) global = "".
Proof.
  induction s as [|c s IH]; intros before Hp; simpl.
  - destruct global; [now rewrite Hp|reflexivity].
  - now apply IH.
Qed.

(** A text that is matched as a whole is replaced as a whole. *)
Lemma js_replace_whole (rx : RegExp) (repl s : string) :
  s <> "" ->
  match_here (rx_items rx) s = Some (String.length s) ->
  match_here (rx_items rx) "" = None ->
  no_dollar repl = true ->
  js_replace rx (VStr repl) s = repl.
Proof.
  intros Hs Hm He Hd. unfold js_replace. simpl to_str.
  destruct s as [|c s]; [contradiction|].
  cbn [replace_from]. rewrite Hm.
  rewrite expand_no_dollar by assumption.
  cbn [String.length]. rewrite replace_from_skip_all by assumption.
  apply string_app_nil_r.
Qed.

(** A text in which the pattern occurs nowhere is left as it is. *)
Lemma replace_from_absent (p : list item) (global : bool) (repl : string) :
  forall (s before : string),
    occurs p s = false ->
    replace_from p global repl before s 0 true = s.
Proof.
  induction s as [|c s IH]; intros before; simpl.
  - destruct (match_here p ""); [discriminate|reflexivity].
  - destruct (match_here p (String c s)); [discriminate|].
    intros H. now rewrite IH.
Qed.

Lemma makeRegex_custom_source (d0 d1 t : string) :
  t <> "" ->
  makeRegex (new_Layouts VUndefined) (custom_tag d0 d1 t)
  = new_RegExp (escape_tag (d0 ++ "\s*" ++ t ++ "\s*" ++ d1)%string) "g".
Proof.
  intros Ht. destruct t as [|c t]; [contradiction|].
  unfold makeRegex, makeTag, custom_tag.
  cbn -[new_RegExp escape_tag append]. reflexivity.
Qed.

Lemma makeTag_custom (d0 d1 t : string) :
  t <> "" ->
  makeTag (new_Layouts VUndefined) (custom_tag d0 d1 t)
  = (d0 ++ " " ++ t ++ " " ++ d1)%string.
Proof.
  intros Ht. destruct t as [|c t]; [contradiction|].
  unfold makeTag, custom_tag. cbn -[append]. reflexivity.
Qed.

(** X12: On an instance with default options, a delimiter pair and a tag name
    of plain characters compile to the pattern that matches the first
    delimiter, white space, the name, white space and the second
    delimiter: the characters [ ] ( ) [ { | } ] of a delimiter are
    escaped and stand for themselves. *)
Theorem makeRegex_literal_delimiters (d0 d1 t : string) :
  t <> "" ->
  plain_text d0 = true -> plain_text t = true -> plain_text d1 = true ->
  makeRegex (new_Layouts VUndefined) (custom_tag d0 d1 t)
  = Some (mkRegExp
            (lits d0 ++ Star Space :: lits t ++ Star Space :: lits d1) true).
Proof.
  intros Ht H0 Hp H1.
  rewrite makeRegex_custom_source by assumption.
  unfold new_RegExp. now rewrite parse_items_tag.
Qed.

Lemma makeRegex_literal_delimiters_witness :
  makeRegex (new_Layouts VUndefined) (custom_tag "{{(" ")}}" "yield")
  = Some (mkRegExp
            [One (Chr "{"); One (Chr "{"); One (Chr "("); Star Space;
             One (Chr "y"); One (Chr "i"); One (Chr "e"); One (Chr "l");
             One (Chr "d"); Star Space;
             One (Chr ")"); One (Chr "}"); One (Chr "}")] true).
Proof.
  apply (@makeRegex_literal_delimiters "{{(" ")}}" "yield");
    [discriminate|reflexivity|reflexivity|reflexivity].
Defined.

(** Substituting into a content that is just the tag, written with any
    white space around the name. *)
Lemma js_replace_spaced_tag (d0 d1 t w1 w2 str : string) :
  t <> "" ->
  no_lead_space t = true -> no_lead_space d1 = true ->
  all_space w1 = true -> all_space w2 = true ->
  no_dollar str = true ->
  js_replace
    (mkRegExp (lits d0 ++ Star Space :: lits t ++ Star Space :: lits d1) true)
    (VStr str) (d0 ++ w1 ++ t ++ w2 ++ d1)%string
  = str.
Proof.
  intros Ht Hlt Hld Hw1 Hw2 Hstr.
  apply js_replace_whole; auto.
  - destruct d0; [destruct w1; [destruct t; [contradiction|]|]|];
      discriminate.
  - now apply match_here_tag.
  - simpl rx_items.
    replace (lits d0 ++ Star Space :: lits t ++ Star Space :: lits d1)%list
      with (lits d0 ++ Star Space :: lits t ++ (Star Space :: lits d1))%list
      by reflexivity.
    now apply match_here_tag_empty.
Qed.

(** X13: The body tag is recognised with any amount of white space, none
    included, on either side of the tag name: [replaceTag] turns a
    content that is just the tag into the replacement. *)
Theorem replaceTag_any_spacing (d0 d1 t w1 w2 str : string) :
  t <> "" ->
  plain_text d0 = true -> plain_text t = true -> plain_text d1 = true ->
  no_lead_space t = true -> no_lead_space d1 = true ->
  all_space w1 = true -> all_space w2 = true ->
  no_dollar str = true ->
  replaceTag (new_Layouts VUndefined) (VStr str)
             (d0 ++ w1 ++ t ++ w2 ++ d1)%string (custom_tag d0 d1 t)
  = Some str.
Proof.
  intros Ht H0 Hp H1 Hlt Hld Hw1 Hw2 Hstr.
  unfold replaceTag.
  rewrite makeRegex_custom_source by assumption.
  unfold new_RegExp. rewrite parse_items_tag by assumption.
  simpl option_map. f_equal.
  now apply js_replace_spaced_tag.
Qed.

Lemma replaceTag_any_spacing_witness :
  replaceTag (new_Layouts VUndefined) (VStr "<p>page</p>")
             "<%=body   %>" (custom_tag "<%=" "%>" "body")
  = Some "<p>page</p>".
Proof.
  apply (@replaceTag_any_spacing "<%=" "%>" "body" "" "   " "<p>page</p>");
    try reflexivity; discriminate.
Defined.

(** X14: The tag that [makeTag] builds for a delimiter pair and a tag name is
    the tag that the pattern of [makeRegex] for the same options
    recognises: substituting into it gives the substituted text alone. *)
Theorem replaceTag_makeTag_round_trip (d0 d1 t str : string) :
  t <> "" ->
  plain_text d0 = true -> plain_text t = true -> plain_text d1 = true ->
  no_lead_space t = true -> no_lead_space d1 = true ->
  no_dollar str = true ->
  let this := new_Layouts VUndefined in
  makeTag this (custom_tag d0 d1 t) = (d0 ++ " " ++ t ++ " " ++ d1)%string
  /\ replaceTag this (VStr str) (makeTag this (custom_tag d0 d1 t))
                (custom_tag d0 d1 t)
     = Some str.
Proof.
  intros Ht H0 Hp H1 Hlt Hld Hstr this. subst this.
  rewrite makeTag_custom by assumption. split; [reflexivity|].
  unfold replaceTag.
  rewrite makeRegex_custom_source by assumption.
  unfold new_RegExp. rewrite parse_items_tag by assumption.
  simpl option_map. f_equal.
  now apply (@js_replace_spaced_tag d0 d1 t " " " " str).
Qed.

Lemma replaceTag_makeTag_round_trip_witness :
  let this := new_Layouts VUndefined in
  makeTag this (custom_tag "{{" "}}" "body") = "{{ body }}"
  /\ replaceTag this (VStr "<p>page</p>")
       (makeTag this (custom_tag "{{" "}}" "body"))
       (custom_tag "{{" "}}" "body")
     = Some "<p>page</p>".
Proof.
  apply (@replaceTag_makeTag_round_trip "{{" "}}" "body" "<p>page</p>");
    try reflexivity; discriminate.
Defined.

(** X15: A content in which the body tag occurs nowhere comes back from
    [replaceTag] as it was. *)
Theorem replaceTag_absent (this : Layouts) (str : value) (content : string)
    (options : value) (rx : RegExp) :
  makeRegex this options = Some rx ->
  occurs (rx_items rx) content = false ->
  replaceTag this str content options = Some content.
Proof.
  intros Hrx Ho. unfold replaceTag. rewrite Hrx. simpl. f_equal.
  unfold js_replace. now apply replace_from_absent.
Qed.

Lemma replaceTag_absent_witness :
  replaceTag (new_Layouts VUndefined) (VStr "ABC")
    "Before {% body %} and <%= body %> After" VUndefined
  = Some "Before {% body %} and <%= body %> After".
Proof.
  apply (@replaceTag_absent (new_Layouts VUndefined) (VStr "ABC")
           "Before {% body %} and <%= body %> After" VUndefined
           default_regex); reflexivity.
Defined.

(** X16: When the folded layouts hold no body tag, [render] returns the
    folded layout alone: the content it was given is dropped. *)
Theorem render_layout_without_tag {E : Externals} (fuel : nat)
    (content name options : value) (this this' : Layouts)
    (layout : folded) (folded_content : string) (rx : RegExp) :
  stack fuel name options this = (Ok layout, this') ->
  acc_content layout = VStr folded_content ->
  folded_content <> "" ->
  this_regex this' = Some rx ->
  occurs (rx_items rx) folded_content = false ->
  render fuel content name options this
  = (Ok (mkRendered (acc_data layout) (VStr folded_content)), this').
Proof.
  intros Hs Hc Hne Hrx Ho.
  rewrite render_unfold, Hs, Hc, Hrx, truthy_VStr by assumption.
  unfold js_replace. now rewrite replace_from_absent.
Qed.

Lemma render_layout_without_tag_witness :
  fst (@render plain 2 (VStr "<p>page</p>") (VStr "note") VUndefined
         tagless_store)
  = Ok (mkRendered VThis (VStr "no place for a page")).
Proof.
  rewrite (@render_layout_without_tag plain 2 (VStr "<p>page</p>")
             (VStr "note") VUndefined tagless_store
             (snd (@stack plain 2 (VStr "note") VUndefined tagless_store))
             (mkFolded VThis (VStr "no place for a page")
                       (Some default_regex) (VStr "{%= body %}"))
             "no place for a page" default_regex);
    try reflexivity; discriminate.
Defined.

(* ================================================================== *)
(** ** Substituting at the body tag *)
(* ================================================================== *)









Section Wrapping.

Context {E : Externals}.



End Wrapping.







(* ================================================================== *)
(** ** Merging data into the context *)
(* ================================================================== *)

Lemma mixin_nil (t : obj) : mixin t (VObj []) = t.
Proof. reflexivity. Qed.

Lemma mixin_cons (t : obj) (k : string) (v : value)
    (fs : list (string * value)) :
  mixin t (VObj ((k, v) :: fs))
  = mixin (assign k
             (match lookup k t, v with
              | Some (VObj old), VObj _ => VObj (mixin old v)
              | _, _ => v
              end) t)
          (VObj fs).
Proof. reflexivity. Qed.

(** A key that the source does not have keeps its value. *)
Lemma mixin_lookup_other (fs : list (string * value)) :
  forall (t : obj) (k : string),
    ~ In k (map fst fs) -> lookup k (mixin t (VObj fs)) = lookup k t.
Proof.
  induction fs as [|[k0 v0] fs IH]; intros t k Hk; [reflexivity|].
  rewrite mixin_cons, IH.
  - apply lookup_assign_other. intros ->. apply Hk. now left.
  - intros Hin. apply Hk. now right.
Qed.

(** A key that the source has with a value that is not an object takes
    that value. *)
Lemma mixin_lookup_set (fs : list (string * value)) :
  forall (t : obj) (k : string) (v : value),
    distinct_keys fs -> lookup k fs = Some v -> isObject v = false ->
    lookup k (mixin t (VObj fs)) = Some v.
Proof.
  induction fs as [|[k0 v0] fs IH]; intros t k v Hd Hl Hv; [discriminate|].
  inversion Hd as [|? ? Hnotin Hd']; subst.
  rewrite mixin_cons. simpl in Hl.
  destruct (k =? k0) eqn:Hk.
  - apply String.eqb_eq in Hk. subst k0. injection Hl as ->.
    rewrite mixin_lookup_other by assumption.
    replace (match lookup k t, v with
             | Some (VObj old), VObj _ => VObj (mixin old v)
             | _, _ => v
             end) with v.
    + apply lookup_assign_same.
    + destruct (lookup k t) as [[]|]; destruct v; try reflexivity;
        discriminate.
  - now apply IH.
Qed.

Lemma lookup_filter_keys (f : string -> bool) (o : obj) (k : string) :
  lookup k (filter (fun kv => f (fst kv)) o)
  = if f k then lookup k o else None.
Proof.
  induction o as [|[k0 v0] o IH]; simpl; [now destruct (f k)|].
  destruct (f k0) eqn:Hf0; simpl.
  - destruct (k =? k0) eqn:Hk.
    + apply String.eqb_eq in Hk. subst. now rewrite Hf0.
    + exact IH.
  - rewrite IH. destruct (k =? k0) eqn:Hk; [|reflexivity].
    apply String.eqb_eq in Hk. subst. now rewrite Hf0.
Qed.

Lemma distinct_keys_filter (f : string * value -> bool) (o : obj) :
  distinct_keys o -> distinct_keys (filter f o).
Proof.
  unfold distinct_keys. induction o as [|kv o IH]; simpl; auto.
  intros Hd. inversion Hd as [|? ? Hnotin Hd']; subst.
  destruct (f kv); simpl; auto.
  constructor; auto.
  intros Hin. apply Hnotin. apply in_map_iff in Hin.
  destruct Hin as (x & Hx & Hin). apply filter_In in Hin.
  apply in_map_iff. exists x. tauto.
Qed.

(** [omit] with an array of keys, on an object. *)
Lemma omit_lookup (o : obj) (ks : list value) (k : string) :
  exists o',
    omit (VObj o) (VArr ks) = VObj o'
    /\ (distinct_keys o -> distinct_keys o')
    /\ lookup k o'
       = if existsb (strict_eq (VStr k)) ks then None else lookup k o.
Proof.
  eexists. split; [reflexivity|]. split.
  - apply distinct_keys_filter.
  - rewrite (lookup_filter_keys
               (fun k => negb (existsb (strict_eq (VStr k)) ks))).
    now destruct (existsb (strict_eq (VStr k)) ks).
Qed.

Lemma lookup_None_not_In (o : obj) (k : string) :
  lookup k o = None -> ~ In k (map fst o).
Proof.
  induction o as [|[k0 v0] o IH]; simpl; [tauto|].
  destruct (k =? k0) eqn:Hk; [discriminate|].
  apply String.eqb_neq in Hk. intros Hl [H|H]; [congruence|].
  now apply IH.
Qed.

Lemma distinct_keys_assign (o : obj) (k : string) (v : value) :
  distinct_keys o -> distinct_keys (assign k v o).
Proof.
  unfold distinct_keys. induction o as [|[k0 v0] o IH]; simpl.
  - intros _. repeat constructor. simpl. tauto.
  - intros Hd. inversion Hd as [|? ? Hnotin Hd']; subst.
    destruct (k =? k0) eqn:Hk; simpl.
    + apply String.eqb_eq in Hk. subst. now constructor.
    + constructor; auto.
      apply String.eqb_neq in Hk. intros Hin. apply Hnotin.
      clear - Hin Hk. induction o as [|[k1 v1] o IH]; simpl in *.
      * destruct Hin as [H|[]]. congruence.
      * destruct (k =? k1); simpl in *; tauto.
Qed.

Lemma distinct_keys_mixin (fs : list (string * value)) :
  forall t, distinct_keys t -> distinct_keys (mixin t (VObj fs)).
Proof.
  induction fs as [|[k0 v0] fs IH]; intros t Ht; [exact Ht|].
  rewrite mixin_cons. apply IH. now apply distinct_keys_assign.
Qed.

Lemma distinct_keys_mixin_any (src : value) (t : obj) :
  distinct_keys t -> distinct_keys (mixin t src).
Proof.
  destruct src; auto. apply distinct_keys_mixin.
Qed.

Lemma get_merge_one (lo : obj) (src : value) (k : string) :
  get (merge (VObj lo) [src]) k = get (VObj (mixin lo src)) k.
Proof. reflexivity. Qed.

(** X17: The keys listed in the [omitKeys] option (by default [mergeFn],
    [content], [delims] and [layout]) never pass from the data or the
    locals of a template into the context. *)
Theorem mergeData_omits_keys {E : Externals} (tmpl : value) (this this' : Layouts)
    (v : value) (ks : list value) (k : string) :
  option_get this "mergeFn" = merge_fn ->
  option_get this "omitKeys" = VArr ks ->
  In (VStr k) ks ->
  _mergeData tmpl this = (Ok v, this') ->
  get (option_get this' "locals") k = get (option_get this "locals") k.
Proof.
  intros Hfn Hks Hin Hm.
  rewrite (@_mergeData_locals _ _ _ _ _ Hfn Hm), Hks.
  destruct (option_get this "locals") as [ | | | | | |lo| | | ];
    try reflexivity.
  rewrite get_merge_one.
  set (d := merge (merge (VObj []) [get tmpl "locals"]) [get tmpl "data"]).
  assert (Hd : exists dd, d = VObj dd) by (eexists; reflexivity).
  destruct Hd as [dd ->].
  destruct (omit_lookup dd ks k) as (o' & -> & _ & Hl).
  assert (Hex : existsb (strict_eq (VStr k)) ks = true).
  { apply existsb_exists. exists (VStr k). split; [exact Hin|].
    simpl. apply String.eqb_refl. }
  rewrite Hex in Hl.
  apply get_lookup. apply mixin_lookup_other.
  now apply lookup_None_not_In.
Qed.

Lemma mergeData_omits_keys_witness :
  get (option_get
         (snd (@_mergeData plain (cached mixed_store (VStr "a")) mixed_store))
         "locals") "layout"
  = get (option_get mixed_store "locals") "layout".
Proof.
  apply (@mergeData_omits_keys plain (cached mixed_store (VStr "a")) mixed_store
           (snd (@_mergeData plain (cached mixed_store (VStr "a")) mixed_store))
           VThis
           [VStr "mergeFn"; VStr "content"; VStr "delims"; VStr "layout"]
           "layout");
    try reflexivity.
  simpl. tauto.
Defined.

(** X18: A key of the data of a template, with a value that is not an object
    and not among the omitted keys, is in the context afterwards with
    that value: the data win over the locals of the template and over
    what the context held. *)
Theorem mergeData_data_wins {E : Externals} (tmpl : value) (this this' : Layouts)
    (v x : value) (ks : list value) (d : obj) (k : string) :
  option_get this "mergeFn" = merge_fn ->
  option_get this "omitKeys" = VArr ks ->
  existsb (strict_eq (VStr k)) ks = false ->
  isObject (option_get this "locals") = true ->
  get tmpl "data" = VObj d ->
  distinct_keys d ->
  lookup k d = Some x ->
  isObject x = false ->
  _mergeData tmpl this = (Ok v, this') ->
  get (option_get this' "locals") k = x.
Proof.
  intros Hfn Hks Hex Hlo Hd Hdist Hl Hx Hm.
  rewrite (@_mergeData_locals _ _ _ _ _ Hfn Hm), Hks, Hd.
  destruct (option_get this "locals") as [ | | | | | |lo| | | ];
    try discriminate.
  rewrite get_merge_one.
  change (merge (merge (VObj []) [get tmpl "locals"]) [VObj d])
    with (VObj (mixin (mixin [] (get tmpl "locals")) (VObj d))).
  set (dd := mixin (mixin [] (get tmpl "locals")) (VObj d)).
  assert (Hdd : distinct_keys dd).
  { apply distinct_keys_mixin, distinct_keys_mixin_any. constructor. }
  assert (Hldd : lookup k dd = Some x)
    by (apply mixin_lookup_set; assumption).
  destruct (omit_lookup dd ks k) as (o' & -> & Hdo & Hlo').
  rewrite Hex, Hldd in Hlo'.
  apply get_own.
  exact (@mixin_lookup_set o' lo k x (Hdo Hdd) Hlo' Hx).
Qed.

Lemma mergeData_data_wins_witness :
  get (option_get
         (snd (@_mergeData plain (cached mixed_store (VStr "a")) mixed_store))
         "locals") "title"
  = VStr "data".
Proof.
  apply (@mergeData_data_wins plain (cached mixed_store (VStr "a")) mixed_store
           (snd (@_mergeData plain (cached mixed_store (VStr "a")) mixed_store))
           VThis (VStr "data")
           [VStr "mergeFn"; VStr "content"; VStr "delims"; VStr "layout"]
           [("title", VStr "data"); ("content", VStr "y")] "title");
    try reflexivity.
  unfold distinct_keys. simpl.
  repeat constructor; simpl; intuition discriminate.
Defined.


(** X20: With an option [mergeFn] that is not a function, [stack] throws at
    the first layout it folds; the per-call options are merged and the
    pattern is compiled by then, the context is as it was. *)
Theorem stack_throws_without_mergeFn {E : Externals} (fuel : nat) (name options : value)
    (this : Layouts) (first : value) (names : list value) (rx : RegExp) :
  createStack fuel this name options = Some (first :: names) ->
  let this1 := with_options this (merge (this_options this) [options]) in
  makeRegex this1 (this_options this1) = Some rx ->
  (forall src, option_get this1 "mergeFn" <> VFun src) ->
  stack fuel name options this = (Throw, with_regex this1 rx).
Proof.
  intros Hc this1 Hrx Hfn.
  rewrite stack_unfold, Hc, stack_fold_unfold. fold this1. rewrite Hrx.
  simpl reduce. unfold bind at 1. unfold stack_step. run_M. simpl.
  pose proof (_mergeData_cases (cached this first) (with_regex this1 rx))
    as Hm. simpl in Hm.
  change (option_get (with_regex this1 rx) "mergeFn")
    with (option_get this1 "mergeFn") in Hm.
  unfold call_mergeFn in Hm.
  destruct (option_get this1 "mergeFn") eqn:Hf;
    try (change (cached (with_regex this1 rx) first)
           with (cached this first);
         now rewrite Hm).
  exfalso. eapply Hfn. reflexivity.
Qed.

Lemma stack_throws_without_mergeFn_witness :
  let options := VObj [("mergeFn", VStr "extend")] in
  @stack plain 2 (VStr "a") options titled_store
  = (Throw,
     with_regex
       (with_options titled_store
          (merge (this_options titled_store) [options]))
       default_regex).
Proof.
  intros options.
  apply (@stack_throws_without_mergeFn plain 2 (VStr "a") options
           titled_store (VStr "a") [] default_regex);
    try reflexivity.
  intros src. discriminate.
Defined.

(* ================================================================== *)
(** ** The template store *)
(* ================================================================== *)

Section StoreFacts.

Variable loader : value -> list value -> option value.

(** [setLayout] with a loader that returns one record. *)
Lemma setLayout_single (args : list value) (this : Layouts) (name : string)
    (v v' : value) :
  load loader this VUndefined args = Some (VObj [(name, v)]) ->
  setLayout_entry (name, v) = Some (name, v') ->
  setLayout loader args this
  = (Ok VThis,
     mkLayouts (this_options this)
               (merge (this_cache this) [VObj [(name, v')]])
               (this_regex this)).
Proof.
  intros Hl He. unfold setLayout. run_M. rewrite Hl.
  cbn -[setLayout_entry merge]. rewrite He. reflexivity.
Qed.

Lemma getLayout_name (this : Layouts) (name : string) :
  name <> "" -> getLayout this (VStr name) = get (this_cache this) name.
Proof.
  intros Hn. unfold getLayout. now rewrite truthy_VStr.
Qed.

End StoreFacts.

(** X21: A record registered with [setLayout] under a name the store does not
    hold is what [getLayout] returns for that name afterwards, and the
    records under the other names are as before. *)
Theorem setLayout_then_getLayout
    (loader : value -> list value -> option value) (args : list value)
    (this : Layouts) (name : string) (r r' : obj) :
  load loader this VUndefined args = Some (VObj [(name, VObj r)]) ->
  setLayout_entry (name, VObj r) = Some (name, VObj r') ->
  name <> "" ->
  isObject (this_cache this) = true ->
  hasOwn (this_cache this) name = false ->
  let this' := snd (setLayout loader args this) in
  fst (setLayout loader args this) = Ok VThis
  /\ getLayout this' (VStr name) = VObj r'
  /\ forall k, k <> "" -> k <> name ->
       getLayout this' (VStr k) = getLayout this (VStr k).
Proof.
  intros Hl He Hn Hc Hfresh this'. subst this'.
  rewrite (setLayout_single _ _ _ Hl He). cbn [fst snd].
  split; [reflexivity|].
  destruct (this_cache this) as [ | | | | | |c| | | ] eqn:Hcache;
    try discriminate.
  simpl in Hfresh.
  destruct (lookup name c) eqn:Hlook; [discriminate|].
  split.
  - rewrite getLayout_name by assumption. cbn [this_cache].
    rewrite get_merge_one, mixin_cons, mixin_nil, Hlook.
    apply get_own, lookup_assign_same.
  - intros k Hk Hkn. rewrite !getLayout_name by assumption.
    cbn [this_cache]. rewrite Hcache, get_merge_one.
    apply get_lookup, mixin_lookup_other.
    simpl. intros [H|[]]. congruence.
Qed.

Lemma setLayout_then_getLayout_witness :
  let record := [("content", VStr "<a>{%= body %}</a>");
                 ("locals", VObj [("layout", VStr "base")])] in
  let this' :=
    snd (setLayout first_argument [VObj [("a", VObj record)]] one_store) in
  getLayout this' (VStr "a")
  = VObj (record ++ [("layout", VStr "base")])
  /\ getLayout this' (VStr "base") = getLayout one_store (VStr "base").
Proof.
  intros record this'.
  destruct (@setLayout_then_getLayout first_argument
              [VObj [("a", VObj record)]] one_store "a" record
              (record ++ [("layout", VStr "base")]))
    as (_ & Hget & Hother);
    try reflexivity; try discriminate.
  split; [exact Hget|].
  apply Hother; discriminate.
Defined.

Lemma setLayout_fresh_record
    (loader : value -> list value -> option value) (args : list value)
    (this : Layouts) (name : string) (v v' : value) :
  load loader this VUndefined args = Some (VObj [(name, v)]) ->
  setLayout_entry (name, v) = Some (name, v') ->
  name <> "" ->
  isObject (this_cache this) = true ->
  hasOwn (this_cache this) name = false ->
  getLayout (snd (setLayout loader args this)) (VStr name) = v'.
Proof.
  intros Hl He Hn Hc Hfresh.
  rewrite (setLayout_single _ _ _ Hl He). cbn [snd].
  destruct (this_cache this) as [ | | | | | |c| | | ] eqn:Hcache;
    try discriminate.
  simpl in Hfresh.
  destruct (lookup name c) eqn:Hlook; [discriminate|].
  rewrite getLayout_name by assumption. cbn [this_cache].
  rewrite get_merge_one, mixin_cons, mixin_nil, Hlook.
  apply get_own. rewrite lookup_assign_same. now destruct v'.
Qed.

Lemma pickLayout_options (r : obj) (name : string) :
  name <> "layout" ->
  hasOwn (VObj r) "options" = true ->
  hasOwn (get (VObj r) "options") "layout" = true ->
  pickLayout (VObj r) name = Some (get (get (VObj r) "options") "layout").
Proof.
  intros Hn Ho Hl. unfold pickLayout.
  apply String.eqb_neq in Hn. rewrite Hn. cbn [isObject]. rewrite Ho.
  destruct (get (VObj r) "options"); try discriminate.
  unfold hasOwn_call. now rewrite Hl.
Qed.

(** X22: Registering a record under a name the store holds already merges the
    two records: a key of the new record with a value that is not an
    object takes the new value, and a key that only the old record has
    is kept. *)
Theorem setLayout_merges_existing
    (loader : value -> list value -> option value) (args : list value)
    (this : Layouts) (name : string) (r r' old : obj) :
  load loader this VUndefined args = Some (VObj [(name, VObj r)]) ->
  setLayout_entry (name, VObj r) = Some (name, VObj r') ->
  name <> "" ->
  get (this_cache this) name = VObj old ->
  distinct_keys r' ->
  let now := getLayout (snd (setLayout loader args this)) (VStr name) in
  (forall k x, lookup k r' = Some x -> isObject x = false -> get now k = x)
  /\ (forall k, ~ In k (map fst r') -> get now k = get (VObj old) k).
Proof.
  intros Hl He Hn Hold Hd now. subst now.
  rewrite (setLayout_single _ _ _ Hl He). cbn [snd].
  rewrite getLayout_name by assumption. cbn [this_cache].
  destruct (this_cache this) as [ | | | | | |c| | | ]; try discriminate.
  - apply get_object_own in Hold. rename Hold into Hlook.
    rewrite get_merge_one, mixin_cons, mixin_nil, Hlook.
    rewrite (get_own _ _ (lookup_assign_same _ _ _)).
    split.
    + intros k x Hk Hx. apply get_own.
      exact (@mixin_lookup_set r' old k x Hd Hk Hx).
    + intros k Hk. apply get_lookup. now apply mixin_lookup_other.
  - pose proof (get_Object_prototype name) as Hp.
    rewrite Hold in Hp. discriminate.
Qed.

Lemma setLayout_merges_existing_witness :
  let now :=
    getLayout
      (snd (setLayout first_argument
              [VObj [("base", VObj [("content", VStr "new {%= body %}")])]]
              one_store))
      (VStr "base") in
  get now "content" = VStr "new {%= body %}"
  /\ get now "layout" = VStr "root"
  /\ get now "title" = VStr "Base".
Proof.
  intros now.
  destruct (@setLayout_merges_existing first_argument
              [VObj [("base", VObj [("content", VStr "new {%= body %}")])]]
              one_store "base"
              [("content", VStr "new {%= body %}")]
              [("content", VStr "new {%= body %}")]
              [("content", VStr "old {%= body %}");
               ("layout", VStr "root"); ("title", VStr "Base")])
    as (Hnew & Hkept);
    try reflexivity; try discriminate.
  - unfold distinct_keys. simpl. repeat constructor. simpl. tauto.
  - subst now. split; [|split].
    + apply Hnew; reflexivity.
    + rewrite Hkept; [reflexivity|]. simpl. intros [H|[]]. discriminate.
    + rewrite Hkept; [reflexivity|]. simpl. intros [H|[]]. discriminate.
Defined.

(** X23: A truthy [options.layout] of a registered record becomes its layout,
    whatever the record says in its own [layout] field or in its
    locals. *)
Theorem setLayout_options_layout_wins
    (loader : value -> list value -> option value) (args : list value)
    (this : Layouts) (name : string) (r : obj) :
  load loader this VUndefined args = Some (VObj [(name, VObj r)]) ->
  name <> "" -> name <> "layout" ->
  hasOwn (VObj r) "options" = true ->
  hasOwn (get (VObj r) "options") "layout" = true ->
  truthy (get (get (VObj r) "options") "layout") = true ->
  isObject (this_cache this) = true ->
  hasOwn (this_cache this) name = false ->
  get (getLayout (snd (setLayout loader args this)) (VStr name)) "layout"
  = get (get (VObj r) "options") "layout".
Proof.
  intros Hl Hn Hnl Ho Hol Ht Hc Hfresh.
  set (l := get (get (VObj r) "options") "layout") in *.
  assert (He : setLayout_entry (name, VObj r)
               = Some (name, VObj (assign "layout" l r))).
  { unfold setLayout_entry. cbn [fst snd].
    rewrite pickLayout_options by assumption. fold l. rewrite Ht.
    apply String.eqb_neq in Hnl. now rewrite Hnl. }
  rewrite (@setLayout_fresh_record loader args this name _ _
             Hl He Hn Hc Hfresh).
  cbn [get]. now rewrite lookup_assign_same.
Qed.

Lemma setLayout_options_layout_wins_witness :
  let record := [("content", VStr "<a>{%= body %}</a>");
                 ("layout", VStr "mine");
                 ("options", VObj [("layout", VStr "base")]);
                 ("locals", VObj [("layout", VStr "other")])] in
  get (getLayout
         (snd (setLayout first_argument [VObj [("a", VObj record)]]
                 one_store))
         (VStr "a")) "layout"
  = VStr "base".
Proof.
  intros record.
  apply (@setLayout_options_layout_wins first_argument
           [VObj [("a", VObj record)]] one_store "a" record);
    try reflexivity; discriminate.
Defined.

(** X24: An own [options.layout] that is falsy hides [locals.layout]: the
    record is stored as it came, with the layout it had. *)
Theorem setLayout_falsy_options_layout
    (loader : value -> list value -> option value) (args : list value)
    (this : Layouts) (name : string) (r : obj) :
  load loader this VUndefined args = Some (VObj [(name, VObj r)]) ->
  name <> "" -> name <> "layout" ->
  hasOwn (VObj r) "options" = true ->
  hasOwn (get (VObj r) "options") "layout" = true ->
  truthy (get (get (VObj r) "options") "layout") = false ->
  isObject (this_cache this) = true ->
  hasOwn (this_cache this) name = false ->
  getLayout (snd (setLayout loader args this)) (VStr name) = VObj r.
Proof.
  intros Hl Hn Hnl Ho Hol Ht Hc Hfresh.
  assert (He : setLayout_entry (name, VObj r) = Some (name, VObj r)).
  { unfold setLayout_entry. cbn [fst snd].
    rewrite pickLayout_options by assumption. now rewrite Ht. }
  exact (@setLayout_fresh_record loader args this name _ _
           Hl He Hn Hc Hfresh).
Qed.

Lemma setLayout_falsy_options_layout_witness :
  let record := [("content", VStr "<a>{%= body %}</a>");
                 ("options", VObj [("layout", VBool false)]);
                 ("locals", VObj [("layout", VStr "base")])] in
  getLayout
    (snd (setLayout first_argument [VObj [("a", VObj record)]] one_store))
    (VStr "a")
  = VObj record.
Proof.
  intros record.
  apply (@setLayout_falsy_options_layout first_argument
           [VObj [("a", VObj record)]] one_store "a" record);
    try reflexivity; discriminate.
Defined.

(** X25: The layout that [setLayout] picks for a record is the one the
    resolver follows: after registering, under a new name, a record whose
    picked layout is a name [b] that the store answers to with a layout
    that refers to nothing, the stack of the new name is [[b, name]]; and
    it is the new name alone where [b] is that name itself, which the
    record now answers to. *)
Theorem setLayout_then_createStack {E : Externals}
    (loader : value -> list value -> option value) (args : list value)
    (this : Layouts) (name b : string) (r r' : obj) (options : value)
    (fuel : nat) :
  load loader this VUndefined args = Some (VObj [(name, VObj r)]) ->
  setLayout_entry (name, VObj r) = Some (name, VObj r') ->
  get (VObj r') "layout" = VStr b ->
  name <> "" -> b <> "" ->
  isFalsey (VStr name) = false -> isFalsey (VStr b) = false ->
  isObject (this_cache this) = true ->
  hasOwn (this_cache this) name = false ->
  truthy (cached this (VStr b)) = true ->
  truthy (layout_of (cached this (VStr b))) = false ->
  truthy (get (merge (VObj []) [this_options this; options]) "defaultLayout")
  = false ->
  2 < fuel ->
  createStack fuel (snd (setLayout loader args this)) (VStr name) options
  = Some (if b =? name then [VStr name] else [VStr b; VStr name]).
Proof.
  intros Hl He Hlay Hn Hb Hfn Hfb Hc Hfresh Hcb Hlb Hdef Hfuel.
  assert (Hnew : cached (snd (setLayout loader args this)) (VStr name)
                 = VObj r').
  { rewrite <- (@setLayout_fresh_record loader args this name _ _
                  Hl He Hn Hc Hfresh).
    now rewrite getLayout_name. }
  destruct (String.eqb_spec b name) as [->|Hnb].
  - unfold createStack. rewrite assertLayout_name by auto.
    apply createStack_loop_one; [| |lia].
    + apply pushable_name; auto. now rewrite Hnew.
    + unfold next_name, layout_of, js_or. rewrite Hnew, Hlay.
      rewrite truthy_VStr, assertLayout_name by auto.
      apply pushable_same.
  - assert (Hold : cached (snd (setLayout loader args this)) (VStr b)
                   = cached this (VStr b)).
    { rewrite (setLayout_single _ _ _ Hl He). unfold cached.
      cbn [snd this_cache].
      destruct (this_cache this) as [ | | | | | |c| | | ]; try discriminate.
      simpl to_str. rewrite get_merge_one.
      apply get_lookup, mixin_lookup_other.
      simpl. intros [H|[]]. congruence. }
    assert (Hopts : this_options (snd (setLayout loader args this))
                    = this_options this)
      by now rewrite (setLayout_single _ _ _ Hl He).
    apply createStack_pair; auto.
    + now rewrite Hnew.
    + now rewrite Hold.
    + now rewrite Hold.
    + now rewrite Hopts.
Qed.

Lemma setLayout_then_createStack_witness :
  let record := [("content", VStr "<c>{%= body %}</c>");
                 ("locals", VObj [("layout", VStr "b")])] in
  @createStack plain 3
    (snd (setLayout first_argument [VObj [("c", VObj record)]] chain_store))
    (VStr "c") VUndefined
  = Some [VStr "b"; VStr "c"].
Proof.
  intros record.
  apply (@setLayout_then_createStack plain first_argument
           [VObj [("c", VObj record)]] chain_store "c" "b" record
           (record ++ [("layout", VStr "b")]) VUndefined 3);
    try reflexivity; try discriminate; lia.
Defined.

(** A record registered under [toString], a name the store answered to
    before, with itself as its layout, is on its stack once. *)
Example setLayout_own_name :
  let record := [("content", VStr "<t>{%= body %}</t>");
                 ("layout", VStr "toString")] in
  @createStack plain 3
    (snd (setLayout first_argument [VObj [("toString", VObj record)]]
            chain_store))
    (VStr "toString") VUndefined
  = Some [VStr "toString"].
Proof. reflexivity. Qed.
